(** * Seccomp profile minimizer (seccomp-minimizer.py)

    A shallow embedding of the greedy minimization loop and of the profile
    operations it uses, followed by the properties of the specification
    that were checked against it.

    Conventions of the embedding:
    - a profile is the dictionary read from the JSON document; only the keys
      the program touches are modelled with their possible absence
      ([syscalls] of the profile, [names] of a rule group), the other keys
      are carried along unchanged;
    - the documents covered are those of the shape the program expects: an
      object whose ["syscalls"], if present, is a list of objects whose
      ["names"], if present, is a list of strings.  [json.load] checks no
      shape; on another document (["syscalls": null], ["names": "read"])
      [get_all_syscalls] or [remove_syscall_from_profile] raise
      [TypeError] or [AttributeError] outside every [try], which ends the
      run; no statement below covers such a document;
    - a path is not a file: [open] and [os.remove] follow the path, and the
      trial policy path is built from a name of the document, so the file
      system ([file_system]) first says which file a path stands for;
    - [json.loads(json.dumps(p))] is a deep copy; values here are immutable,
      so the copy is the identity and no aliasing can be observed;
    - Python compares [str] by code points; strings here are byte strings
      compared bytewise, which is the same order on UTF-8 text;
    - the container runtime, the HTTP service and the file system are the
      environment: every answer they can give (a result or a raised
      exception) is a value of the environment record, over which the
      theorems quantify;
    - of the log only the line printed at the head of each iteration is
      kept, as an entry of the trace, and printing is taken not to fail;
      waiting ([time.sleep]) is an entry of the trace without duration. *)

From Stdlib Require Import String Ascii ZArith List.
From Stdlib Require OrderedTypeEx.
From stdpp Require Import base option list sorting strings gmap.

Open Scope string_scope.
Open Scope list_scope.

(** ** Profiles *)

(** One entry of the profile's ["syscalls"] list.  [names] is [None] when the
    key ["names"] is absent from the dictionary. *)
Record syscall_group := SyscallGroup {
  names : option (list string);
  action : string;
}.

(** The profile dictionary.  [syscalls] is [None] when the key is absent.
    A value of this type is a document of the expected shape; the values of
    other shapes that [json.load] can return, on which the profile
    operations raise, have no counterpart here. *)
Record profile := Profile {
  defaultAction : string;
  syscalls : option (list syscall_group);
}.

#[global] Instance syscall_group_eq_dec : EqDecision syscall_group.
Proof. solve_decision. Defined.

#[global] Instance profile_eq_dec : EqDecision profile.
Proof. solve_decision. Defined.

(** Lexical order on syscall names, as used by [sorted]. *)
Definition str_le (a b : string) : Prop := String.leb a b = true.

#[global] Instance str_le_dec : RelDecision str_le.
Proof. intros a b. unfold str_le. apply _. Defined.

(** [sorted(list(set(xs)))]: the set forgets order and multiplicity, the
    sort fixes the order again. *)
Definition sorted_set (xs : list string) : list string :=
  merge_sort str_le (elements (list_to_set xs : gset string)).

(** [syscall_group.get('names', [])] *)
Definition group_names (g : syscall_group) : list string :=
  default [] (names g).

(** The accumulator [syscalls] of [get_all_syscalls] after its loop: the
    concatenation of every group's names, in document order. *)
Definition extended_names (p : profile) : list string :=
  foldl (fun acc g => acc ++ group_names g) [] (default [] (syscalls p)).

Definition get_all_syscalls (p : profile) : list string :=
  sorted_set (extended_names p).

(** [list.remove(x)]: drops the first occurrence of [x]; [None] stands for
    the [ValueError] raised when [x] does not occur. *)
Fixpoint list_remove (x : string) (l : list string) : option (list string) :=
  match l with
  | [] => None
  | y :: l' =>
      if decide (y = x) then Some l'
      else (y ::.) <$> list_remove x l'
  end.

(** Body of the loop of [remove_syscall_from_profile] for one group.  The
    guard is the source's [if]; under it [list.remove] cannot raise, so the
    last branch is never taken (lemma [list_remove_is_Some]). *)
Definition remove_from_group (syscall_name : string) (g : syscall_group)
  : syscall_group :=
  match names g with
  | Some ns =>
      if bool_decide (syscall_name ∈ ns) then
        match list_remove syscall_name ns with
        | Some ns' => {| names := Some ns'; action := action g |}
        | None => g
        end
      else g
  | None => g
  end.

Definition remove_syscall_from_profile (p : profile) (syscall_name : string)
  : profile :=
  {| defaultAction := defaultAction p;
     syscalls := map (remove_from_group syscall_name) <$> syscalls p |}.

Definition one_group (ns : list string) : profile :=
  {| defaultAction := "SCMP_ACT_ERRNO";
     syscalls := Some [ {| names := Some ns; action := "SCMP_ACT_ALLOW" |} ] |}.

(** ** Effects: exceptions, the trace of external actions, the file system *)

(** The exception classes the program distinguishes; all of them derive
    from [Exception].  Interrupts ([KeyboardInterrupt]) are no errors of
    this kind and are outside the model. *)
Inductive exn :=
| TimeoutExpired          (* subprocess.TimeoutExpired *)
| CalledProcessError      (* subprocess.CalledProcessError *)
| RequestException        (* requests.exceptions.RequestException *)
| OtherException.         (* OSError, JSONDecodeError, KeyError, ... *)

#[global] Instance exn_eq_dec : EqDecision exn.
Proof. solve_decision. Defined.

(** External actions, recorded in the order the program performs them. *)
Inductive event :=
| StopAllContainers
| StopContainer
| Load (path : string)
| Save (path : string) (p : profile)
| DockerRun (profile_path : string)
| Sleep
| DockerInspect
| DockerLogs
| TestWeb
| HttpGet
| HttpPostForm
| HttpPostApi
| OsRemove (path : string)
| LogTesting (i total : nat) (syscall : string).

#[global] Instance event_eq_dec : EqDecision event.
Proof. solve_decision. Defined.

(** The policy documents on disk.  [open] and [os.remove] take a path,
    and several paths can stand for one file: in a directory that has a
    subdirectory [seccomp_test_x], the path
    ["seccomp_test_x/../seccomp.json"] is the file ["seccomp.json"].
    [denotes] gives the file a path stands for and [content] the document
    each file holds.  The program creates and deletes regular files only and
    no directory, so [denotes] is the same throughout a run; a path that
    cannot be followed (a missing directory) shows as a failed write or
    removal, which is an answer of the environment.  Links, symbolic or
    hard, are not modelled: a document has one directory entry, and
    [denotes] names the entry a path leads to. *)
Record file_system := FileSystem {
  denotes : string → string;
  content : gmap string profile;
}.

(** Reading, writing and deleting under a path act on the file the path
    stands for. *)
#[global] Instance file_system_lookup : Lookup string profile file_system :=
  λ path fs, content fs !! denotes fs path.

#[global] Instance file_system_insert : Insert string profile file_system :=
  λ path p fs,
    {| denotes := denotes fs;
       content := <[denotes fs path := p]> (content fs) |}.

#[global] Instance file_system_delete : Delete string file_system :=
  λ path fs,
    {| denotes := denotes fs;
       content := delete (denotes fs path) (content fs) |}.

(** A flat directory without any file, seen through paths that do not
    leave it: every path stands for a file of its own. *)
#[global] Instance file_system_empty : Empty file_system :=
  {| denotes := λ path, path; content := ∅ |}.

#[global] Arguments file_system_lookup : simpl never.
#[global] Arguments file_system_insert : simpl never.
#[global] Arguments file_system_delete : simpl never.

(** The part of the machine outside the interpreter: the policy documents
    on disk and the actions performed so far (most recent last). *)
Record world := World {
  files : file_system;
  trace : list event;
}.

(** The controller's local variables during the loop. *)
Record state := State {
  working_profile : profile;
  necessary_syscalls : gset string;
  the_world : world;
}.

(** Computations that read and update a state [σ] and end with a value or
    with a raised exception.  Effects performed before the exception stay. *)
Definition M (σ A : Type) : Type := σ → (exn + A) * σ.

Definition ret {σ A} (a : A) : M σ A := fun s => (inr a, s).

Definition raise {σ A} (e : exn) : M σ A := fun s => (inl e, s).

Definition bind {σ A B} (m : M σ A) (k : A → M σ B) : M σ B :=
  fun s =>
    match m s with
    | (inl e, s') => (inl e, s')
    | (inr a, s') => k a s'
    end.

Declare Scope prog_scope.
Delimit Scope prog_scope with prog.
Notation "'do' x <- m ; k" := (bind m (fun x => k))
  (at level 10, x name, m at level 99, k at level 200) : prog_scope.
Notation "m ;; k" := (bind m (fun _ => k))
  (at level 100, k at level 200, right associativity) : prog_scope.
Open Scope prog_scope.

(** [try: m except Exception: h] *)
Definition try_except {σ A} (m : M σ A) (h : exn → M σ A) : M σ A :=
  fun s =>
    match m s with
    | (inl e, s') => h e s'
    | (inr a, s') => (inr a, s')
    end.

(** [try: m finally: f]: [f] always runs; an exception of [f] replaces the
    outcome of [m]. *)
Definition try_finally {σ A} (m : M σ A) (f : M σ unit) : M σ A :=
  fun s =>
    let '(r, s') := m s in
    match f s' with
    | (inl e, s'') => (inl e, s'')
    | (inr _, s'') => (r, s'')
    end.

Definition emit (ev : event) : M world unit :=
  fun w => (inr tt, {| files := files w; trace := trace w ++ [ev] |}).

(** Runs a computation on the world inside the controller's state. *)
Definition lift {A} (m : M world A) : M state A :=
  fun st =>
    let '(r, w') := m (the_world st) in
    (r, {| working_profile := working_profile st;
           necessary_syscalls := necessary_syscalls st;
           the_world := w' |}).

Definition get_working : M state profile :=
  fun st => (inr (working_profile st), st).

Definition set_working (p : profile) : M state unit :=
  fun st => (inr tt, {| working_profile := p;
                        necessary_syscalls := necessary_syscalls st;
                        the_world := the_world st |}).

(** [necessary_syscalls.add(syscall)] *)
Definition add_necessary (syscall : string) : M state unit :=
  fun st => (inr tt, {| working_profile := working_profile st;
                        necessary_syscalls := necessary_syscalls st ∪ {[syscall]};
                        the_world := the_world st |}).

(** What one call of an external process can do. *)
Inductive proc_result :=
| Exited (returncode : Z)
| ProcRaises (e : exn).

(** What writing a policy document can do.  A failed write either left
    the path as it was or destroyed its previous content ([open(..., 'w')]
    truncates before [json.dump] writes). *)
Inductive save_result :=
| Saved
| SaveRaises (e : exn) (clobbered : bool).

(** The environment's answers during the trial of one candidate. *)
Record trial_env := TrialEnv {
  save_test : save_result;          (* writing the trial policy file *)
  docker_run : proc_result;         (* docker run -d ..., timeout=30 *)
  docker_inspect : proc_result;     (* docker inspect <id> *)
  inspect_running : exn + bool;     (* json.loads(stdout)[0]['State']['Running'] *)
  docker_logs : proc_result;        (* docker logs <id> *)
  http_get : exn + Z;               (* GET /           -> status code *)
  http_post_form : exn + Z;         (* POST /write     -> status code *)
  http_post_api : exn + Z;          (* POST /api/write -> status code *)
  save_working : save_result;       (* writing seccomp.json on a commit *)
  remove_test : bool;               (* os.remove(trial file) succeeded *)
}.

(** The environment of a whole run.  Candidates of one run are pairwise
    distinct, so indexing the trial answers by the candidate and the trial
    policy covers every sequence of answers a run can meet. *)
Record env := Env {
  stop_all : option exn;            (* exception inside stop_all_containers *)
  load_default : exn + profile;     (* reading seccomp-default.json *)
  save_initial : save_result;       (* first write of seccomp.json *)
  trial : string → profile → trial_env;
  save_final : save_result;         (* writing seccomp-minimized.json *)
}.

Definition of_result {σ A} (r : exn + A) : M σ A :=
  match r with
  | inl e => raise e
  | inr a => ret a
  end.

(** [subprocess.run(cmd, ...)] *)
Definition subprocess_run (ev : event) (r : proc_result) : M world Z :=
  emit ev;;
  match r with
  | Exited rc => ret rc
  | ProcRaises e => raise e
  end.

(** [save_seccomp_profile(profile, filepath)] *)
Definition save_seccomp_profile (p : profile) (filepath : string)
    (r : save_result) : M world unit :=
  emit (Save filepath p);;
  fun w =>
    match r with
    | Saved =>
        (inr tt, {| files := <[filepath := p]> (files w); trace := trace w |})
    | SaveRaises e clobbered =>
        (inl e, {| files := if clobbered then delete filepath (files w)
                            else files w;
                   trace := trace w |})
    end.

(** [load_seccomp_profile(filepath)] *)
Definition load_seccomp_profile (filepath : string) (r : exn + profile)
  : M world profile :=
  emit (Load filepath);; of_result r.

(** [stop_all_containers()]: only [CalledProcessError] is handled. *)
Definition stop_all_containers (r : option exn) : M world unit :=
  emit StopAllContainers;;
  match r with
  | None => ret tt
  | Some CalledProcessError => ret tt
  | Some e => raise e
  end.

(** [stop_container()]: its whole body is guarded by [except Exception],
    so it never raises. *)
Definition stop_container : M world unit := emit StopContainer.

(** [os.remove(path)] inside [try: ... except: pass] *)
Definition os_remove (path : string) (removed : bool) : M world unit :=
  emit (OsRemove path);;
  fun w =>
    (inr tt, {| files := if removed then delete path (files w) else files w;
                trace := trace w |}).

(** ** Launching and verifying one instance *)

Section Trial.

Variable tr : trial_env.

(** The [try] block of [run_container_with_profile]. *)
Definition run_container_try (profile_path : string) : M world bool :=
  do returncode <- subprocess_run (DockerRun profile_path) (docker_run tr);
  if decide (returncode ≠ 0%Z) then ret false
  else
    emit Sleep;;
    do inspect_returncode <- subprocess_run DockerInspect (docker_inspect tr);
    if decide (inspect_returncode ≠ 0%Z) then ret false
    else
      do running <- of_result (inspect_running tr);
      if negb running then
        do logs_returncode <- subprocess_run DockerLogs (docker_logs tr);
        ret false
      else ret true.

(** [run_container_with_profile(profile_path)].  Both handlers return
    [False]; they differ in the logged text only. *)
Definition run_container_with_profile (profile_path : string)
  : M world bool :=
  try_except (run_container_try profile_path)
    (fun e =>
       match e with
       | TimeoutExpired => ret false
       | _ => ret false
       end).

Definition http_request (ev : event) (r : exn + Z) : M world Z :=
  emit ev;; of_result r.

(** The [try] block of [test_web_functionality]: the three requests, in
    order, stopping at the first status other than 200. *)
Definition test_web_try : M world bool :=
  do status1 <- http_request HttpGet (http_get tr);
  if decide (status1 ≠ 200%Z) then ret false
  else
    do status2 <- http_request HttpPostForm (http_post_form tr);
    if decide (status2 ≠ 200%Z) then ret false
    else
      do status3 <- http_request HttpPostApi (http_post_api tr);
      if decide (status3 ≠ 200%Z) then ret false
      else ret true.

(** [test_web_functionality()] *)
Definition test_web_functionality : M world bool :=
  emit TestWeb;;
  try_except test_web_try
    (fun e =>
       match e with
       | RequestException => ret false
       | _ => ret false
       end).

End Trial.

(** ** The controller *)

Definition working_profile_path : string := "seccomp.json".
Definition default_profile_path : string := "seccomp-default.json".
Definition minimized_profile_path : string := "seccomp-minimized.json".

(** [f"seccomp_test_{syscall}.json"] *)
Definition test_profile_path (syscall : string) : string :=
  "seccomp_test_" ++ syscall ++ ".json".

(** What a completed run leaves behind in the interpreter: the values of
    [working_profile] and [necessary_syscalls] that the report prints. *)
Record report := Report {
  final_profile : profile;
  necessary : gset string;
}.

Section Controller.

Variable E : env.

(** Body of the [for] loop of [minimize_seccomp_profile] for the
    candidate [syscall] at index [i] of [all_syscalls]. *)
Definition trial_iteration (all_syscalls : list string) (i : nat)
    (syscall : string) : M state unit :=
  lift (emit (LogTesting (i + 1) (length all_syscalls) syscall));;
  do working <- get_working;
  let test_profile := remove_syscall_from_profile working syscall in
  let tr := trial E syscall test_profile in
  lift (save_seccomp_profile test_profile (test_profile_path syscall)
          (save_test tr));;
  try_finally
    (try_except
       (lift stop_container;;
        do started <- lift (run_container_with_profile tr
                              (test_profile_path syscall));
        if started then
          do passed <- lift (test_web_functionality tr);
          if passed then
            set_working test_profile;;
            do committed <- get_working;
            lift (save_seccomp_profile committed working_profile_path
                    (save_working tr))
          else add_necessary syscall
        else add_necessary syscall)
       (fun e => add_necessary syscall))
    (lift stop_container;;
     lift (os_remove (test_profile_path syscall) (remove_test tr))).

(** [for i, syscall in enumerate(all_syscalls)], entered at index [i]
    with [rest] still to visit. *)
Fixpoint for_each (all_syscalls : list string) (i : nat)
    (rest : list string) : M state unit :=
  match rest with
  | [] => ret tt
  | syscall :: rest' =>
      trial_iteration all_syscalls i syscall;;
      for_each all_syscalls (S i) rest'
  end.

(** [minimize_seccomp_profile()] *)
Definition minimize_seccomp_profile : M world report :=
  stop_all_containers (stop_all E);;
  do default_profile <- load_seccomp_profile default_profile_path
                          (load_default E);
  let working := default_profile in
  save_seccomp_profile working working_profile_path (save_initial E);;
  let all_syscalls := get_all_syscalls working in
  fun w =>
    let st0 := {| working_profile := working;
                  necessary_syscalls := ∅;
                  the_world := w |} in
    match for_each all_syscalls 0 all_syscalls st0 with
    | (inl e, st) => (inl e, the_world st)
    | (inr _, st) =>
        (stop_container;;
         save_seccomp_profile (working_profile st) minimized_profile_path
           (save_final E);;
         ret {| final_profile := working_profile st;
                necessary := necessary_syscalls st |}) (the_world st)
    end.

End Controller.

(** ** Derived notions used in the statements *)

(** [profile.get('syscalls', [])] *)
Definition groups (p : profile) : list syscall_group := default [] (syscalls p).

(** The names of a group after the loop body of
    [remove_syscall_from_profile]. *)
Definition names_after_remove (n : string) (ns : list string) : list string :=
  default ns (list_remove n ns).

(** Profiles in which no group lists a name twice. *)
Definition names_unique (p : profile) : Prop :=
  Forall (λ g, NoDup (group_names g)) (groups p).


(** The launch reaches the [Running] state: the launch command exits with 0
    in time, the inspection exits with 0 and reports a running instance. *)
Definition launch_reaches_running (tr : trial_env) : bool :=
  match docker_run tr, docker_inspect tr, inspect_running tr with
  | Exited 0, Exited 0, inr true => true
  | _, _, _ => false
  end.

(** All three requests of the battery answer with status 200. *)
Definition verification_passes (tr : trial_env) : bool :=
  bool_decide (http_get tr = inr 200%Z)
  && bool_decide (http_post_form tr = inr 200%Z)
  && bool_decide (http_post_api tr = inr 200%Z).

Definition empty_world : world := {| files := ∅; trace := [] |}.

(** The actions of a launch, and of a verification, seen on their own. *)
Definition launch_trace (tr : trial_env) (profile_path : string) : list event :=
  trace (run_container_with_profile tr profile_path empty_world).2.

Definition verify_trace (tr : trial_env) : list event :=
  trace (test_web_functionality tr empty_world).2.

Definition is_verifier_event (ev : event) : bool :=
  match ev with
  | TestWeb | HttpGet | HttpPostForm | HttpPostApi => true
  | _ => false
  end.

(** How the trial of one candidate ends, read off the environment's
    answers. *)
Inductive verdict :=
| Abort (e : exn)      (* the trial policy file could not be written *)
| Commit               (* launched, verified, working policy replaced and saved *)
| CommitUnsaved        (* as [Commit], but writing seccomp.json raised *)
| Keep.                (* not launched or not verified *)

Definition trial_verdict (tr : trial_env) : verdict :=
  match save_test tr with
  | SaveRaises e _ => Abort e
  | Saved =>
      if launch_reaches_running tr && verification_passes tr then
        match save_working tr with
        | Saved => Commit
        | SaveRaises _ _ => CommitUnsaved
        end
      else Keep
  end.

Definition working_file (st : state) : option profile :=
  files (the_world st) !! working_profile_path.

(** Two paths stand for the same file. *)
Definition same_file (w : world) (p q : string) : Prop :=
  denotes (files w) p = denotes (files w) q.

#[global] Instance same_file_dec w p q : Decision (same_file w p q).
Proof. unfold same_file. apply _. Defined.

(** None of the trial policy paths of the candidates [cands] stands for
    the file that [path] stands for. *)
Definition trial_files_apart (w : world) (cands : list string)
    (path : string) : Prop :=
  Forall (λ c, ¬ same_file w (test_profile_path c) path) cands.

#[global] Instance trial_files_apart_dec w cands path :
  Decision (trial_files_apart w cands path).
Proof. unfold trial_files_apart. apply _. Defined.

(** The commit of a trial left no document behind [path]: the write of
    seccomp.json raised after truncating the file, and [path] stands for
    that very file. *)
Definition commit_destroys (w : world) (tr : trial_env) (path : string)
  : bool :=
  launch_reaches_running tr && verification_passes tr
  && match save_working tr with
     | SaveRaises _ true => true
     | _ => false
     end
  && bool_decide (same_file w path working_profile_path).

(** The state in which the loop is entered. *)
Definition loop_entry (baseline : profile) (w : world) : state :=
  {| working_profile := baseline;
     necessary_syscalls := ∅;
     the_world :=
       {| files := <[working_profile_path := baseline]> (files w);
          trace := trace w ++ [StopAllContainers; Load default_profile_path;
                               Save working_profile_path baseline] |} |}.


(** Whether a computation ended with a raised exception. *)
Definition raised {A} (r : (exn + A) * world) : bool :=
  match r.1 with
  | inl _ => true
  | inr _ => false
  end.

(** An exception is raised inside the [try] block of the launch (by the
    launch command or by the running-state probe) or, once the instance
    runs, inside the [try] block of the verifier. *)
Definition trial_raises (tr : trial_env) (profile_path : string) : bool :=
  raised (run_container_try tr profile_path empty_world)
  || (launch_reaches_running tr && raised (test_web_try tr empty_world)).

(** An exception is raised somewhere inside the [try] block of the loop
    body: as above, or by writing seccomp.json on a commit. *)
Definition try_block_raises (tr : trial_env) (profile_path : string) : bool :=
  trial_raises tr profile_path
  || (launch_reaches_running tr && verification_passes tr
      && match save_working tr with
         | Saved => false
         | SaveRaises _ _ => true
         end).

(** The ["Testing syscall k/total: name"] lines of a trace. *)
Definition logged (t : list event) : list (nat * nat * string) :=
  omap (λ ev, match ev with
              | LogTesting k total c => Some (k, total, c)
              | _ => None
              end) t.

(** The line [k/total: name] is what a loop over the list [cands] prints
    at its [k]-th element. *)
Definition enumerated_from (cands : list string)
    (entry : nat * nat * string) : Prop :=
  entry.1.2 = length cands ∧ cands !! (entry.1.1 - 1)%nat = Some entry.2.

(** Names of the baseline that are absent from the final policy. *)
Definition removed_set (baseline final : profile) : gset string :=
  list_to_set (get_all_syscalls baseline)
  ∖ list_to_set (get_all_syscalls final).

(** The working policy of [st'] lists no name that the one of [st] does
    not list, and not more names. *)
Definition narrows (st st' : state) : Prop :=
  (∀ x, x ∈ get_all_syscalls (working_profile st') →
        x ∈ get_all_syscalls (working_profile st))
  ∧ (length (get_all_syscalls (working_profile st'))
     ≤ length (get_all_syscalls (working_profile st)))%nat.

(** The lines a loop over [cands] prints, entered at index [i]. *)
Definition candidate_lines (total i : nat) (cands : list string)
  : list (nat * nat * string) :=
  imap (λ k c, (i + k + 1, total, c)%nat) cands.

(** Nothing fails outside the trials: the containers left over are
    stopped, and every policy document can be written. *)
Definition io_steady (E : env) : Prop :=
  stop_all E = None
  ∧ save_initial E = Saved
  ∧ save_final E = Saved
  ∧ ∀ c tp, save_test (trial E c tp) = Saved
            ∧ save_working (trial E c tp) = Saved.

(** ** Concrete file systems *)

(** The components of a path, split at ["/"]. *)
Fixpoint components (path : string) : list string :=
  match path with
  | EmptyString => [EmptyString]
  | String a rest =>
      if Ascii.eqb a "/"%char then EmptyString :: components rest
      else
        match components rest with
        | comp :: comps => String a comp :: comps
        | [] => [String a EmptyString]
        end
  end.

(** Follows the components of a relative path from the working
    directory; [entered] lists the directories entered so far, innermost
    first.  An empty component and ["."] stay where they are, [".."] leaves
    the innermost directory (or steps above the working directory). *)
Fixpoint follow (entered : list string) (comps : list string) : list string :=
  match comps with
  | [] => rev entered
  | comp :: comps' =>
      if bool_decide (comp = "" ∨ comp = ".") then follow entered comps'
      else if bool_decide (comp = "..") then
        match entered with
        | dir :: outer =>
            if bool_decide (dir = "..") then follow (comp :: entered) comps'
            else follow outer comps'
        | [] => follow [comp] comps'
        end
      else follow (comp :: entered) comps'
  end.

(** The file a relative path stands for when every directory it names
    exists and nothing is a link ([os.path.normpath]). *)
Definition normpath (path : string) : string :=
  String.concat "/" (follow [] (components path)).

(** Names without a path separator. *)
Fixpoint plain (name : string) : bool :=
  match name with
  | EmptyString => true
  | String a rest => negb (Ascii.eqb a "/"%char) && plain rest
  end.

(** A working directory in which the directories named by the paths
    exist (among them [seccomp_test_x]); it holds no policy document
    yet. *)
Definition nested_directory : file_system :=
  {| denotes := normpath; content := ∅ |}.

Definition nested_world : world :=
  {| files := nested_directory; trace := [] |}.

(** ** Concrete environments *)

(** A name that leads out of its own trial policy file: the path built
    from it is ["seccomp_test_x/../seccomp.json"]. *)
Definition escaping_name : string := "x/../seccomp".

(** A baseline that lists such a name next to read. *)
Definition escaping_profile : profile := one_group ["read"; escaping_name].

(** A trial in which every external action succeeds; the first request of
    the battery answers 200 or 500. *)
Definition healthy_trial (passes : bool) : trial_env :=
  {| save_test := Saved;
     docker_run := Exited 0;
     docker_inspect := Exited 0;
     inspect_running := inr true;
     docker_logs := Exited 0;
     http_get := inr (if passes then 200 else 500)%Z;
     http_post_form := inr 200%Z;
     http_post_api := inr 200%Z;
     save_working := Saved;
     remove_test := true |}.

(** A run without any failure of the runtime or of the file system, in
    which the service works under exactly the trial policies accepted by
    [passes]. *)
Definition steady_env (baseline : profile) (passes : profile → bool) : env :=
  {| stop_all := None;
     load_default := inr baseline;
     save_initial := Saved;
     trial := λ _ tp, healthy_trial (passes tp);
     save_final := Saved |}.

Definition futex_needed (tp : profile) : bool :=
  bool_decide ("futex" ∈ get_all_syscalls tp).

(** A trial whose launch command runs into its timeout. *)
Definition launch_timeout_trial : trial_env :=
  {| save_test := Saved;
     docker_run := ProcRaises TimeoutExpired;
     docker_inspect := Exited 0;
     inspect_running := inr true;
     docker_logs := Exited 0;
     http_get := inr 200%Z;
     http_post_form := inr 200%Z;
     http_post_api := inr 200%Z;
     save_working := Saved;
     remove_test := true |}.

Definition launch_timeout_env (baseline : profile) : env :=
  {| stop_all := None;
     load_default := inr baseline;
     save_initial := Saved;
     trial := λ _ _, launch_timeout_trial;
     save_final := Saved |}.

(** A healthy service, but the trial policy files cannot be written (for
    instance a read-only directory entry for them). *)
Definition trial_file_unwritable (baseline : profile) : env :=
  {| stop_all := None;
     load_default := inr baseline;
     save_initial := Saved;
     trial := λ _ _,
       {| save_test := SaveRaises OtherException false;
          docker_run := Exited 0;
          docker_inspect := Exited 0;
          inspect_running := inr true;
          docker_logs := Exited 0;
          http_get := inr 200%Z;
          http_post_form := inr 200%Z;
          http_post_api := inr 200%Z;
          save_working := Saved;
          remove_test := true |};
     save_final := Saved |}.

(** A healthy service in which writing seccomp.json fails on every
    commit (the first write, before the loop, succeeded). *)
Definition working_file_unwritable (baseline : profile) : env :=
  {| stop_all := None;
     load_default := inr baseline;
     save_initial := Saved;
     trial := λ _ _,
       {| save_test := Saved;
          docker_run := Exited 0;
          docker_inspect := Exited 0;
          inspect_running := inr true;
          docker_logs := Exited 0;
          http_get := inr 200%Z;
          http_post_form := inr 200%Z;
          http_post_api := inr 200%Z;
          save_working := SaveRaises OtherException false;
          remove_test := true |};
     save_final := Saved |}.

(** A service that works exactly under the policies listing both read
    and write. *)
Definition read_write_needed (tp : profile) : bool :=
  bool_decide ("read" ∈ get_all_syscalls tp)
  && bool_decide ("write" ∈ get_all_syscalls tp).

Definition scenario_profile : profile :=
  one_group ["read"; "write"; "openat"; "futex"; "socket"].

(** A healthy service that needs futex, in which the trial policy file of
    the candidate socket cannot be written. *)
Definition socket_file_unwritable (baseline : profile) : env :=
  {| stop_all := None;
     load_default := inr baseline;
     save_initial := Saved;
     trial := λ c tp,
       if bool_decide (c = "socket") then
         {| save_test := SaveRaises OtherException false;
            docker_run := Exited 0;
            docker_inspect := Exited 0;
            inspect_running := inr true;
            docker_logs := Exited 0;
            http_get := inr 200%Z;
            http_post_form := inr 200%Z;
            http_post_api := inr 200%Z;
            save_working := Saved;
            remove_test := true |}
       else healthy_trial (futex_needed tp);
     save_final := Saved |}.

(** ** The script's entry point *)

(** The block under [if __name__ == "__main__"], without its handler for
    interrupts: the value is the exit status of the process. *)
Definition main (E : env) : M world Z :=
  try_except
    (minimize_seccomp_profile E;; ret 0%Z)
    (fun e => stop_container;; ret 1%Z).

(** ** Teardown in detail

    The controller above sees [stop_container] and [stop_all_containers]
    through their outcome only.  Here are their bodies, command by command,
    against a runtime whose answers may depend on everything that was asked
    before. *)
Module Teardown.

(** The commands handed to [subprocess.run]. *)
Inductive command :=
| DockerPs (ancestor : option string)   (* docker ps -q [--filter ancestor=...] *)
| DockerStop (container_ids : list string)
| DockerRm (container_ids : list string).

(** What [subprocess.run(cmd, capture_output=True, text=True)] gives: the
    exit status with the text [result.stdout.strip()], or an exception. *)
Inductive answer :=
| Completed (returncode : Z) (stdout_stripped : string)
| Raises (e : exn).

(** The state is the list of the commands issued so far, most recent
    last. *)
Definition runtime : Type := list command → command → answer.

(** The separator ['\n'], as a string. *)
Definition newline : string := String "010"%char EmptyString.

(** [str.split('\n')] *)
Fixpoint split_lines (s : string) : list string :=
  match s with
  | EmptyString => [EmptyString]
  | String c s' =>
      if Ascii.eqb c "010"%char then EmptyString :: split_lines s'
      else
        match split_lines s' with
        | line :: lines => String c line :: lines
        | [] => [String c EmptyString]
        end
  end.

Section Commands.

Variable rt : runtime.

(** [subprocess.run(cmd, check=check, ...)], giving the stripped output. *)
Definition run (check : bool) (cmd : command) : M (list command) string :=
  fun h =>
    match rt h cmd with
    | Completed returncode out =>
        if check && bool_decide (returncode ≠ 0%Z)
        then (inl CalledProcessError, h ++ [cmd])
        else (inr out, h ++ [cmd])
    | Raises e => (inl e, h ++ [cmd])
    end.

(** [for container_id in container_ids: subprocess.run(["docker", "stop",
    container_id], capture_output=True)] *)
Fixpoint stop_each (container_ids : list string) : M (list command) unit :=
  match container_ids with
  | [] => ret tt
  | container_id :: rest =>
      do stopped <- run false (DockerStop [container_id]);
      stop_each rest
  end.

(** The [try] block of [stop_container]. *)
Definition stop_container_try : M (list command) unit :=
  do out <- run false (DockerPs (Some "flask:0.0.3"));
  if bool_decide (out ≠ EmptyString) then stop_each (split_lines out)
  else ret tt.

(** [stop_container()] *)
Definition stop_container : M (list command) unit :=
  try_except stop_container_try (fun e => ret tt).

(** The [try] block of [stop_all_containers]. *)
Definition stop_all_containers_try : M (list command) unit :=
  do out <- run false (DockerPs None);
  if bool_decide (out ≠ EmptyString) then
    let container_ids := split_lines out in
    do stopped <- run true (DockerStop container_ids);
    do removed <- run true (DockerRm container_ids);
    ret tt
  else ret tt.

(** [stop_all_containers()] *)
Definition stop_all_containers : M (list command) unit :=
  try_except stop_all_containers_try
    (fun e =>
       match e with
       | CalledProcessError => ret tt
       | _ => raise e
       end).

End Commands.

(** The exception, if any, with which a computation ended. *)
Definition exn_of {σ A} (r : (exn + A) * σ) : option exn :=
  match r.1 with
  | inl e => Some e
  | inr _ => None
  end.

(** A runtime in which two flask containers run and every command
    succeeds. *)
Definition two_containers : runtime :=
  λ _ cmd,
    match cmd with
    | DockerPs _ =>
        Completed 0 ("3f2a9c0d1b7e" ++ String "010"%char "9a8b7c6d5e4f")
    | _ => Completed 0 ""
    end.

End Teardown.

(** * Proof automation *)

Lemma pair_eq_inv {A B} (a c : A) (b d : B) : (a, b) = (c, d) → a = c ∧ b = d.
Proof. intros Heq. split; [exact (f_equal fst Heq) | exact (f_equal snd Heq)]. Qed.

(** Settles a decidable closed proposition by evaluating its decision. *)
Ltac decide_by_evaluation :=
  match goal with
  | |- ?P => apply (proj1 (bool_decide_eq_true P)); vm_compute; reflexivity
  end.

Ltac unfold_prog :=
  unfold run_container_with_profile, run_container_try,
    test_web_functionality, test_web_try, http_request, subprocess_run,
    save_seccomp_profile, os_remove, stop_container, of_result,
    try_except, try_finally, bind, ret, raise, emit, lift,
    get_working, set_working, add_necessary in *.

(** * Sanity checks of the embedding *)

Example get_all_syscalls_ex :
  get_all_syscalls (one_group ["read"; "write"; "openat"; "futex"; "socket"; "read"])
  = ["futex"; "openat"; "read"; "socket"; "write"].
Proof. vm_compute. reflexivity. Qed.

(** * Properties of the profile operations *)

Section ProfileFacts.

Implicit Types (p : profile) (g : syscall_group) (n x : string)
  (l ns : list string).

(** [list.remove] raises exactly when the element is missing. *)
Lemma list_remove_None n l : list_remove n l = None ↔ n ∉ l.
Proof.
  induction l as [|y l IH]; simpl.
  - split; [intros _; apply not_elem_of_nil | done].
  - rewrite not_elem_of_cons. case_decide as Hy.
    + split; [done | intros [Hne _]; congruence].
    + rewrite fmap_None, IH. split; [intros ?; split; congruence | tauto].
Qed.

Lemma list_remove_is_Some n l : n ∈ l → is_Some (list_remove n l).
Proof.
  intros Hin. destruct (list_remove n l) eqn:Hr; [eauto|].
  apply list_remove_None in Hr. contradiction.
Qed.

(** The list left by [list.remove]: the first occurrence is cut out. *)
Lemma list_remove_Some n l l' :
  list_remove n l = Some l' ↔
  ∃ l1 l2, l = l1 ++ n :: l2 ∧ (n ∉ l1) ∧ l' = l1 ++ l2.
Proof.
  revert l'. induction l as [|y l IH]; intros l'; simpl.
  - split; [done|]. intros (l1 & l2 & Hl & _). by destruct l1.
  - case_decide as Hy.
    + subst y. split.
      * intros [= <-]. exists [], l. split_and!; [done| |done].
        apply not_elem_of_nil.
      * intros (l1 & l2 & Hl & Hn & ->). destruct l1 as [|z l1].
        -- simpl in Hl. by injection Hl as ->.
        -- injection Hl as <- _. rewrite not_elem_of_cons in Hn. tauto.
    + rewrite fmap_Some. split.
      * intros (l0 & Hr & ->). apply IH in Hr as (l1 & l2 & -> & Hn & ->).
        exists (y :: l1), l2. split_and!; [done| |done].
        rewrite not_elem_of_cons. split; [congruence|done].
      * intros (l1 & l2 & Hl & Hn & ->). destruct l1 as [|z l1].
        -- simpl in Hl. injection Hl as -> _. done.
        -- injection Hl as <- ->. rewrite not_elem_of_cons in Hn.
           exists (l1 ++ l2). split; [|done].
           apply IH. exists l1, l2. tauto.
Qed.

Lemma group_names_remove n g :
  group_names (remove_from_group n g) = names_after_remove n (group_names g).
Proof.
  unfold remove_from_group, group_names, names_after_remove.
  destruct (names g) as [ns|] eqn:Hg; simpl; [|by rewrite Hg].
  case_bool_decide as Hin.
  - destruct (list_remove n ns); simpl; [done | by rewrite Hg].
  - rewrite Hg. simpl. apply list_remove_None in Hin. by rewrite Hin.
Qed.

Lemma names_after_remove_subseteq n ns x :
  x ∈ names_after_remove n ns → x ∈ ns.
Proof.
  unfold names_after_remove.
  destruct (list_remove n ns) as [l'|] eqn:Hr; simpl; [|done].
  apply list_remove_Some in Hr as (l1 & l2 & -> & _ & ->).
  rewrite !elem_of_app, elem_of_cons. tauto.
Qed.

Lemma names_after_remove_other n ns x :
  x ≠ n → x ∈ ns → x ∈ names_after_remove n ns.
Proof.
  unfold names_after_remove. intros Hne.
  destruct (list_remove n ns) as [l'|] eqn:Hr; simpl; [|done].
  apply list_remove_Some in Hr as (l1 & l2 & -> & _ & ->).
  rewrite !elem_of_app, elem_of_cons. tauto.
Qed.

Lemma names_after_remove_NoDup n ns :
  NoDup ns → NoDup (names_after_remove n ns) ∧ n ∉ names_after_remove n ns.
Proof.
  unfold names_after_remove. intros Hnd.
  destruct (list_remove n ns) as [l'|] eqn:Hr; simpl.
  - apply list_remove_Some in Hr as (l1 & l2 & -> & Hn1 & ->).
    apply NoDup_app in Hnd as (Hd1 & Hd12 & Hd2).
    apply NoDup_cons in Hd2 as [Hn2 Hd2]. split.
    + apply NoDup_app. split_and!; [done| |done].
      intros y Hy1 Hy2. apply (Hd12 y Hy1). by right.
    + rewrite elem_of_app. tauto.
  - split; [done|]. by apply list_remove_None.
Qed.

(** A second occurrence survives [list.remove]. *)
Lemma names_after_remove_twice n l1 l2 :
  n ∉ l1 → n ∈ l2 →
  names_after_remove n (l1 ++ n :: l2) = l1 ++ l2 ∧ n ∈ l1 ++ l2.
Proof.
  intros Hn1 Hn2. unfold names_after_remove.
  assert (list_remove n (l1 ++ n :: l2) = Some (l1 ++ l2)) as ->.
  { apply list_remove_Some. by exists l1, l2. }
  split; [done|]. rewrite elem_of_app. by right.
Qed.

Lemma extended_names_concat p :
  extended_names p = concat (group_names <$> groups p).
Proof.
  unfold extended_names. fold (groups p).
  enough (∀ gs acc, foldl (λ acc g, acc ++ group_names g) acc gs
                    = acc ++ concat (group_names <$> gs)) as H.
  { by rewrite H. }
  induction gs as [|g gs IH]; intros acc; simpl.
  - by rewrite app_nil_r.
  - by rewrite IH, app_assoc.
Qed.

Lemma groups_remove p n :
  groups (remove_syscall_from_profile p n) = remove_from_group n <$> groups p.
Proof. unfold groups. simpl. by destruct (syscalls p). Qed.

Lemma elem_of_extended_names p x :
  x ∈ extended_names p ↔ ∃ g, g ∈ groups p ∧ x ∈ group_names g.
Proof.
  rewrite extended_names_concat.
  induction (groups p) as [|g gs IH]; simpl.
  - split; [by intros ?%elem_of_nil|]. by intros (g & ?%elem_of_nil & _).
  - rewrite elem_of_app, IH. split.
    + intros [Hx|(g' & Hg' & Hx)].
      * exists g. split; [left|done].
      * exists g'. split; [by right|done].
    + intros (g' & Hg' & Hx). apply elem_of_cons in Hg' as [->|Hg']; eauto.
Qed.

Lemma sorted_set_Permutation l :
  sorted_set l ≡ₚ elements (list_to_set l : gset string).
Proof. apply merge_sort_Permutation. Qed.

Lemma elem_of_sorted_set l x : x ∈ sorted_set l ↔ x ∈ l.
Proof.
  rewrite sorted_set_Permutation, elem_of_elements.
  apply elem_of_list_to_set.
Qed.

Lemma NoDup_sorted_set l : NoDup (sorted_set l).
Proof. rewrite sorted_set_Permutation. apply NoDup_elements. Qed.

Lemma elem_of_get_all_syscalls p x :
  x ∈ get_all_syscalls p ↔ ∃ g, g ∈ groups p ∧ x ∈ group_names g.
Proof.
  unfold get_all_syscalls. by rewrite elem_of_sorted_set, elem_of_extended_names.
Qed.

Lemma NoDup_get_all_syscalls p : NoDup (get_all_syscalls p).
Proof. apply NoDup_sorted_set. Qed.

(** Removal never adds a name ... *)
Lemma get_all_syscalls_remove_subseteq p n x :
  x ∈ get_all_syscalls (remove_syscall_from_profile p n) →
  x ∈ get_all_syscalls p.
Proof.
  rewrite !elem_of_get_all_syscalls, groups_remove.
  intros (g' & Hg' & Hx). apply list_elem_of_fmap in Hg' as (g & -> & Hg).
  exists g. split; [done|]. rewrite group_names_remove in Hx.
  by eapply names_after_remove_subseteq.
Qed.

(** ... and never loses a name other than the one asked for. *)
Lemma get_all_syscalls_remove_other p n x :
  x ≠ n → x ∈ get_all_syscalls p →
  x ∈ get_all_syscalls (remove_syscall_from_profile p n).
Proof.
  rewrite !elem_of_get_all_syscalls, groups_remove.
  intros Hne (g & Hg & Hx). exists (remove_from_group n g). split.
  - apply list_elem_of_fmap. eauto.
  - rewrite group_names_remove. by apply names_after_remove_other.
Qed.

Lemma get_all_syscalls_remove_length p n :
  (length (get_all_syscalls (remove_syscall_from_profile p n))
   ≤ length (get_all_syscalls p))%nat.
Proof.
  apply submseteq_length, NoDup_submseteq; [apply NoDup_get_all_syscalls|].
  intros x. apply get_all_syscalls_remove_subseteq.
Qed.

Lemma names_unique_remove p n :
  names_unique p → names_unique (remove_syscall_from_profile p n).
Proof.
  unfold names_unique. rewrite groups_remove, Forall_fmap. intros Hu.
  eapply Forall_impl; [exact Hu|]. intros g Hg. simpl.
  rewrite group_names_remove. by apply names_after_remove_NoDup.
Qed.

Lemma get_all_syscalls_remove_unique p n :
  names_unique p → n ∉ get_all_syscalls (remove_syscall_from_profile p n).
Proof.
  intros Hu. rewrite elem_of_get_all_syscalls, groups_remove.
  intros (g' & Hg' & Hx). apply list_elem_of_fmap in Hg' as (g & -> & Hg).
  rewrite group_names_remove in Hx.
  unfold names_unique in Hu. rewrite Forall_forall in Hu.
  by apply (names_after_remove_NoDup n (group_names g) (Hu g Hg)).
Qed.

(** Where no group lists a name twice, removal is set difference. *)
Lemma get_all_syscalls_remove_iff p n x :
  names_unique p →
  x ∈ get_all_syscalls (remove_syscall_from_profile p n) ↔
  x ∈ get_all_syscalls p ∧ x ≠ n.
Proof.
  intros Hu. split.
  - intros Hx. split; [by eapply get_all_syscalls_remove_subseteq|].
    intros ->. by apply (get_all_syscalls_remove_unique p n).
  - intros [Hx Hne]. by apply get_all_syscalls_remove_other.
Qed.

Lemma NoDup_extended_names_unique p :
  NoDup (extended_names p) → names_unique p.
Proof.
  rewrite extended_names_concat. unfold names_unique.
  induction (groups p) as [|g gs IH]; simpl; [constructor|].
  rewrite NoDup_app. intros (Hg & _ & Hgs). constructor; auto.
Qed.

End ProfileFacts.

(** * Properties of one trial *)

Section TrialFacts.

Variable tr : trial_env.

(** [run_container_with_profile] never raises, touches no file and
    returns [True] exactly when the launch reaches [Running]. *)
Lemma run_container_with_profile_spec profile_path w :
  run_container_with_profile tr profile_path w
  = (inr (launch_reaches_running tr),
     {| files := files w; trace := trace w ++ launch_trace tr profile_path |}).
Proof.
  unfold launch_trace, launch_reaches_running. unfold_prog.
  destruct tr as [? dr di ir dl ? ? ? ? ?]; simpl.
  destruct dr as [[| |]|[]]; simpl; try (by rewrite <- ?app_assoc);
  destruct di as [[| |]|[]]; simpl; try (by rewrite <- ?app_assoc);
  destruct ir as [[]|[]]; simpl; try (by rewrite <- ?app_assoc);
  destruct dl as [?|[]]; simpl; by rewrite <- ?app_assoc.
Qed.

Lemma test_web_functionality_spec w :
  test_web_functionality tr w
  = (inr (verification_passes tr),
     {| files := files w; trace := trace w ++ verify_trace tr |}).
Proof.
  unfold verify_trace, verification_passes. unfold_prog.
  destruct tr as [? ? ? ? ? hg hf ha ? ?]; simpl.
  destruct hg as [[]|z1], hf as [[]|z2], ha as [[]|z3]; simpl;
    repeat (case_decide; simpl); repeat (case_bool_decide; simpl);
    simplify_eq; try done; by rewrite <- ?app_assoc.
Qed.

End TrialFacts.

(** * Properties of the file system *)

Section FileFacts.

Variable fs : file_system.

Lemma denotes_insert path p : denotes (<[path := p]> fs) = denotes fs.
Proof. reflexivity. Qed.

Lemma denotes_delete path : denotes (delete path fs) = denotes fs.
Proof. reflexivity. Qed.

(** A write under [path] is read back under every path that stands for
    the same file, and under no other. *)
Lemma fs_lookup_insert path p q :
  <[path := p]> fs !! q
  = if decide (denotes fs path = denotes fs q) then Some p else fs !! q.
Proof.
  change (<[denotes fs path := p]> (content fs) !! denotes fs q
          = if decide (denotes fs path = denotes fs q) then Some p
            else content fs !! denotes fs q).
  case_decide as Hd.
  - rewrite Hd. apply lookup_insert_eq.
  - by apply lookup_insert_ne.
Qed.

Lemma fs_lookup_delete path q :
  delete path fs !! q
  = if decide (denotes fs path = denotes fs q) then None else fs !! q.
Proof.
  change (delete (denotes fs path) (content fs) !! denotes fs q
          = if decide (denotes fs path = denotes fs q) then None
            else content fs !! denotes fs q).
  case_decide as Hd.
  - rewrite Hd. apply lookup_delete_eq.
  - by apply lookup_delete_ne.
Qed.

End FileFacts.

Section PlainNames.

Lemma plain_app s t : plain (s ++ t) = plain s && plain t.
Proof.
  induction s as [|a s IH]; [done|].
  change (plain (String a (s ++ t)) = plain (String a s) && plain t).
  simpl. by rewrite IH, andb_assoc.
Qed.

Lemma components_plain s : plain s = true → components s = [s].
Proof.
  induction s as [|a s IH]; simpl; [done|].
  intros [Ha Hs]%andb_true_iff. apply negb_true_iff in Ha.
  by rewrite Ha, IH.
Qed.

Lemma normpath_plain s :
  plain s = true → s ≠ "" → s ≠ "." → s ≠ ".." → normpath s = s.
Proof.
  intros Hs Hempty Hdot Hup. unfold normpath.
  rewrite components_plain by done. cbn [follow].
  rewrite bool_decide_eq_false_2 by (by intros [?|?]).
  by rewrite bool_decide_eq_false_2.
Qed.

Lemma test_profile_path_plain c :
  plain c = true → normpath (test_profile_path c) = test_profile_path c.
Proof.
  intros Hc. apply normpath_plain.
  - unfold test_profile_path. by rewrite !plain_app, Hc.
  - unfold test_profile_path. simpl. discriminate.
  - unfold test_profile_path. simpl. discriminate.
  - unfold test_profile_path. simpl. discriminate.
Qed.

(** In a directory tree without links, the trial policy path of a name
    without a path separator stands for none of the three policy files. *)
Lemma plain_names_apart (w : world) (cands : list string) :
  denotes (files w) = normpath →
  Forall (λ c, plain c = true) cands →
  trial_files_apart w cands working_profile_path
  ∧ trial_files_apart w cands minimized_profile_path
  ∧ trial_files_apart w cands default_profile_path.
Proof.
  intros Hd Hplain. unfold trial_files_apart, same_file. rewrite Hd.
  split_and!; (eapply Forall_impl; [exact Hplain|]); intros c Hc; cbv beta;
    rewrite (test_profile_path_plain c Hc);
    [ change (normpath working_profile_path) with "seccomp.json"
    | change (normpath minimized_profile_path) with "seccomp-minimized.json"
    | change (normpath default_profile_path) with "seccomp-default.json" ];
    unfold test_profile_path; simpl; discriminate.
Qed.

End PlainNames.

(** Reads through every write and deletion, path by path. *)
Ltac files_by_path :=
  repeat first
    [ rewrite fs_lookup_insert | rewrite fs_lookup_delete
    | rewrite denotes_insert | rewrite denotes_delete ];
  repeat case_decide; try done; try congruence.

(** * Properties of one iteration of the loop *)

Ltac reduce_state :=
  cbn [fst snd working_profile necessary_syscalls the_world files trace].

Ltac run_iteration :=
  unfold trial_iteration;
  cbv beta delta [bind lift get_working set_working add_necessary
                  try_finally try_except save_seccomp_profile os_remove
                  stop_container emit ret raise];
  reduce_state;
  repeat first
    [ rewrite run_container_with_profile_spec
    | rewrite test_web_functionality_spec
    | match goal with
      | |- context [match save_test ?t with _ => _ end] =>
          destruct (save_test t) as [|? []] eqn:?
      | |- context [if launch_reaches_running ?t then _ else _] =>
          destruct (launch_reaches_running t) eqn:?
      | |- context [if verification_passes ?t then _ else _] =>
          destruct (verification_passes t) eqn:?
      | |- context [match save_working ?t with _ => _ end] =>
          destruct (save_working t) as [|? []] eqn:?
      | |- context [if remove_test ?t then _ else _] =>
          destruct (remove_test t) eqn:?
      end
    | progress reduce_state ].

Section IterationFacts.

Variable E : env.
Variables (all_syscalls : list string) (i : nat) (syscall : string).
Variable st : state.

(** The effect of one iteration on the local variables, by verdict. *)
Lemma trial_iteration_verdict r st' :
  let test_profile := remove_syscall_from_profile (working_profile st) syscall in
  trial_iteration E all_syscalls i syscall st = (r, st') →
  match trial_verdict (trial E syscall test_profile) with
  | Abort e =>
      r = inl e ∧ working_profile st' = working_profile st
      ∧ necessary_syscalls st' = necessary_syscalls st
  | Commit =>
      r = inr tt ∧ working_profile st' = test_profile
      ∧ necessary_syscalls st' = necessary_syscalls st
  | CommitUnsaved =>
      r = inr tt ∧ working_profile st' = test_profile
      ∧ necessary_syscalls st' = necessary_syscalls st ∪ {[syscall]}
  | Keep =>
      r = inr tt ∧ working_profile st' = working_profile st
      ∧ necessary_syscalls st' = necessary_syscalls st ∪ {[syscall]}
  end.
Proof.
  intros test_profile. subst test_profile.
  unfold trial_verdict.
  run_iteration; intros [= <- <-]; reduce_state; split_and?; done.
Qed.

(** No iteration changes which file a path stands for. *)
Lemma trial_iteration_denotes r st' :
  trial_iteration E all_syscalls i syscall st = (r, st') →
  denotes (files (the_world st')) = denotes (files (the_world st)).
Proof. run_iteration; intros [= <- <-]; reflexivity. Qed.

(** The effect of one iteration on seccomp.json, when the trial policy
    path stands for another file: a commit leaves the trial policy in it,
    a trial that keeps the candidate leaves it as it was. *)
Lemma trial_iteration_verdict_file r st' :
  let test_profile := remove_syscall_from_profile (working_profile st) syscall in
  trial_iteration E all_syscalls i syscall st = (r, st') →
  ¬ same_file (the_world st) (test_profile_path syscall) working_profile_path →
  match trial_verdict (trial E syscall test_profile) with
  | Commit => working_file st' = Some test_profile
  | Keep => working_file st' = working_file st
  | _ => True
  end.
Proof.
  intros test_profile. subst test_profile.
  unfold trial_verdict, working_file, same_file. intros Hrun Hpath. revert Hrun.
  run_iteration; intros [<- <-]%pair_eq_inv; reduce_state; cbn [andb];
    try done; files_by_path.
Qed.

End IterationFacts.

(** * Properties of the loop and of a whole run *)

Section LoopFacts.

Variable E : env.
Variable all_syscalls : list string.

(** An iteration ends with an exception only on verdict [Abort]. *)
Lemma trial_iteration_raises i c st e st' :
  trial_iteration E all_syscalls i c st = (inl e, st') →
  ∃ clobbered,
    save_test (trial E c (remove_syscall_from_profile (working_profile st) c))
    = SaveRaises e clobbered.
Proof.
  intros Hrun. apply trial_iteration_verdict in Hrun. revert Hrun.
  unfold trial_verdict. cbv zeta.
  destruct (save_test _) as [|e' cl].
  - destruct (_ && _); [destruct (save_working _)|]; by intros [? _].
  - intros [[= ->] _]. eauto.
Qed.

(** The working policy after an iteration is the one before it, or the
    trial policy. *)
Lemma trial_iteration_working i c st r st' :
  trial_iteration E all_syscalls i c st = (r, st') →
  working_profile st' = working_profile st
  ∨ working_profile st' = remove_syscall_from_profile (working_profile st) c.
Proof.
  intros Hrun. apply trial_iteration_verdict in Hrun. revert Hrun. cbv zeta.
  destruct (trial_verdict _); intros (_ & Hw & _); auto.
Qed.

(** A relation between the states before and after an iteration that is
    a preorder holds across the whole loop, however it ends. *)
Lemma for_each_preserves (R : state → state → Prop) :
  (∀ st, R st st) →
  (∀ st1 st2 st3, R st1 st2 → R st2 st3 → R st1 st3) →
  (∀ i c st, R st (trial_iteration E all_syscalls i c st).2) →
  ∀ rest i st, R st (for_each E all_syscalls i rest st).2.
Proof.
  intros Hrefl Htrans Hstep rest.
  induction rest as [|c rest IH]; intros i st; simpl; [apply Hrefl|].
  unfold bind. specialize (Hstep i c st).
  destruct (trial_iteration E all_syscalls i c st) as [[e|[]] st1]; simpl in *.
  - done.
  - eapply Htrans; [exact Hstep | apply IH].
Qed.

(** The loop is left by an exception only when writing some candidate's
    trial policy file raised it. *)
Lemma for_each_raises rest i st e st' :
  for_each E all_syscalls i rest st = (inl e, st') →
  ∃ c tp clobbered,
    c ∈ rest ∧ save_test (trial E c tp) = SaveRaises e clobbered.
Proof.
  revert i st. induction rest as [|c rest IH]; intros i st; simpl.
  - by unfold ret.
  - unfold bind.
    destruct (trial_iteration E all_syscalls i c st) as [[e1|[]] st1] eqn:Hit.
    + intros [= -> ->]. apply trial_iteration_raises in Hit as [cl Hcl].
      eexists c, _, cl. split; [left | done].
    + intros Hrest. apply IH in Hrest as (c' & tp & cl & Hc' & Hcl).
      exists c', tp, cl. split; [by right | done].
Qed.

End LoopFacts.

Section RunFacts.

Variable E : env.

(** A run that completes went through the whole loop and wrote the
    final working policy to seccomp-minimized.json. *)
Lemma minimize_completed w rep w' :
  minimize_seccomp_profile E w = (inr rep, w') →
  ∃ baseline st,
    load_default E = inr baseline
    ∧ for_each E (get_all_syscalls baseline) 0 (get_all_syscalls baseline)
        (loop_entry baseline w) = (inr tt, st)
    ∧ final_profile rep = working_profile st
    ∧ necessary rep = necessary_syscalls st
    ∧ files w' !! minimized_profile_path = Some (working_profile st)
    ∧ trace w' = trace (the_world st)
                 ++ [StopContainer; Save minimized_profile_path (working_profile st)].
Proof.
  unfold minimize_seccomp_profile, stop_all_containers, load_seccomp_profile.
  unfold_prog.
  destruct (stop_all E) as [[]|]; simpl; try done;
    (destruct (load_default E) as [e|baseline]; simpl; [done|]);
    (destruct (save_initial E) as [|e cl]; simpl; [|done]);
    rewrite <- !app_assoc; simpl; fold (loop_entry baseline w);
    (destruct (for_each _ _ _ _ _) as [[e|[]] st] eqn:Hloop; simpl; [done|]);
    (destruct (save_final E) as [|e cl]; simpl; [|done]);
    intros [[= <-] <-]%pair_eq_inv; exists baseline, st;
    cbn [final_profile necessary files trace];
    rewrite <- ?app_assoc; split_and?; try done; files_by_path.
Qed.

(** A run is aborted only by [stop_all_containers], by reading the
    baseline, by the first or the last write of a working policy, or by
    writing a candidate's trial policy file. *)
Lemma minimize_aborted w e w' :
  minimize_seccomp_profile E w = (inl e, w') →
  (stop_all E = Some e ∧ e ≠ CalledProcessError)
  ∨ load_default E = inl e
  ∨ (∃ clobbered, save_initial E = SaveRaises e clobbered)
  ∨ (∃ baseline c tp clobbered,
       load_default E = inr baseline ∧ c ∈ get_all_syscalls baseline
       ∧ save_test (trial E c tp) = SaveRaises e clobbered)
  ∨ (∃ clobbered, save_final E = SaveRaises e clobbered).
Proof.
  unfold minimize_seccomp_profile, stop_all_containers, load_seccomp_profile.
  unfold_prog.
  destruct (stop_all E) as [[]|]; simpl;
    try (intros [= <- <-]; left; split; done);
    (destruct (load_default E) as [e0|baseline]; simpl;
     [intros [= <- <-]; right; by left|]);
    (destruct (save_initial E) as [|e0 cl]; simpl;
     [|intros [= <- <-]; right; right; left; eauto]);
    (destruct (for_each _ _ _ _ _) as [[e0|[]] st] eqn:Hloop; simpl;
     [ intros [= <- <-]; apply for_each_raises in Hloop as (c & tp & cl & ? & ?);
       right; right; right; left; by exists baseline, c, tp, cl
     | ]);
    (destruct (save_final E) as [|e0 cl]; simpl; [done|]);
    intros [= <- <-]; right; right; right; right; eauto.
Qed.

(** The loop over a list in two parts. *)
Lemma for_each_app all_syscalls visited rest :
  ∀ i st,
    for_each E all_syscalls i (visited ++ rest) st
    = match for_each E all_syscalls i visited st with
      | (inl e, st') => (inl e, st')
      | (inr _, st') =>
          for_each E all_syscalls (i + length visited) rest st'
      end.
Proof.
  induction visited as [|c visited IH]; intros i st; simpl.
  - unfold ret. by rewrite Nat.add_0_r.
  - unfold bind.
    destruct (trial_iteration E all_syscalls i c st) as [[e|[]] st1]; [done|].
    rewrite IH. by rewrite Nat.add_succ_r.
Qed.

(** When the loop reaches a candidate whose trial policy file cannot be
    written, the run ends with the exception of that write. *)
Lemma minimize_trial_file_error w baseline visited c rest st e clobbered :
  stop_all E = None ∨ stop_all E = Some CalledProcessError →
  load_default E = inr baseline →
  save_initial E = Saved →
  get_all_syscalls baseline = visited ++ c :: rest →
  for_each E (get_all_syscalls baseline) 0 visited (loop_entry baseline w)
  = (inr tt, st) →
  save_test (trial E c (remove_syscall_from_profile (working_profile st) c))
  = SaveRaises e clobbered →
  (minimize_seccomp_profile E w).1 = inl e.
Proof.
  intros Hstop Hload Hinit Hsplit Hloop Hsave.
  assert (∀ l, l = visited ++ c :: rest →
               ∃ st', for_each E (get_all_syscalls baseline) 0 l
                        (loop_entry baseline w) = (inl e, st')) as Hends.
  { intros l ->. rewrite for_each_app, Hloop. simpl. unfold bind.
    destruct (trial_iteration _ _ _ _ _) as [r st1] eqn:Hit.
    apply trial_iteration_verdict in Hit. revert Hit. cbv zeta.
    unfold trial_verdict. rewrite Hsave. intros (-> & _). by exists st1. }
  destruct (Hends _ Hsplit) as [st' Hfull].
  unfold minimize_seccomp_profile, stop_all_containers, load_seccomp_profile.
  unfold_prog. rewrite Hload, Hinit.
  destruct Hstop as [-> | ->]; simpl;
    rewrite <- !app_assoc; simpl; fold (loop_entry baseline w);
    by rewrite Hfull.
Qed.

End RunFacts.

(** * The profile operations against the specification *)

Section RemovalClaims.

Implicit Types (p : profile) (g : syscall_group) (n : string)
  (ns : list string).

Lemma remove_from_group_absent n g :
  n ∉ group_names g → remove_from_group n g = g.
Proof.
  unfold remove_from_group, group_names.
  destruct (names g) as [ns|]; simpl; [|done].
  intros Hn. by rewrite bool_decide_eq_false_2.
Qed.

(** Where no group lists a name twice, a second removal of the same
    name changes nothing. *)
Lemma remove_syscall_idempotent_unique p n :
  names_unique p →
  remove_syscall_from_profile (remove_syscall_from_profile p n) n
  = remove_syscall_from_profile p n.
Proof.
  intros Hu. unfold remove_syscall_from_profile. simpl. f_equal.
  unfold names_unique, groups in Hu.
  destruct (syscalls p) as [gs|]; simpl in *; [|done]. f_equal.
  induction Hu as [|g gs Hg Hgs IH]; simpl; [done|]. f_equal; [|done].
  apply remove_from_group_absent. rewrite group_names_remove.
  by apply names_after_remove_NoDup.
Qed.

(** A name at two positions of a list: the first occurrence can be cut
    out, and the name still occurs after it. *)
Lemma repeated_name_split ns n i j :
  i ≠ j → ns !! i = Some n → ns !! j = Some n →
  ∃ l1 l2, ns = l1 ++ n :: l2 ∧ (n ∉ l1) ∧ n ∈ l2.
Proof.
  intros Hij Hi Hj.
  assert (n ∈ ns) as Hin by (by eapply list_elem_of_lookup_2).
  apply list_elem_of_split_l in Hin as (l1 & l2 & -> & Hn1).
  exists l1, l2. split_and!; [done..|].
  assert (∀ k, k ≠ length l1 → (l1 ++ n :: l2) !! k = Some n → n ∈ l2) as Hk.
  { intros k Hk Hlook. destruct (decide (k < length l1)%nat) as [Hlt|Hge].
    - rewrite lookup_app_l in Hlook by done.
      apply list_elem_of_lookup_2 in Hlook. contradiction.
    - rewrite lookup_app_r in Hlook by lia.
      destruct (k - length l1)%nat as [|m] eqn:Hm; [lia|]. simpl in Hlook.
      by eapply list_elem_of_lookup_2. }
  destruct (decide (i = length l1)) as [->|Hne]; [by eapply (Hk j)|].
  by eapply (Hk i).
Qed.

End RemovalClaims.

(** Claim C1 (the flattened set of the policy returned by the removal is
    the flattened set of the input minus the name).  The program does not
    keep this for a group that lists the name twice: for the single group
    [["read", "read"]] the removal of ["read"] returns a policy whose
    flattened set still is [["read"]], while the flattened set of the input
    minus ["read"] is empty. *)
Theorem removal_misses_repeated_name :
  get_all_syscalls
    (remove_syscall_from_profile (one_group ["read"; "read"]) "read")
  = ["read"]
  ∧ filter (λ x, x ≠ "read") (get_all_syscalls (one_group ["read"; "read"]))
    = [].
Proof. split; vm_compute; reflexivity. Qed.

(** Claim C5 (removing a name twice equals removing it once).  The program
    does not keep this for a group that lists the name three times: each
    call cuts out one occurrence. *)
Theorem removal_twice_differs :
  let p := one_group ["read"; "read"; "read"] in
  remove_syscall_from_profile p "read" = one_group ["read"; "read"]
  ∧ remove_syscall_from_profile (remove_syscall_from_profile p "read") "read"
    = one_group ["read"]
  ∧ remove_syscall_from_profile (remove_syscall_from_profile p "read") "read"
    ≠ remove_syscall_from_profile p "read".
Proof. split_and!; [vm_compute; reflexivity..|vm_compute; discriminate]. Qed.

(** Claim C10: when a rule group lists the name at two different
    positions, [remove_syscall_from_profile] cuts out the first occurrence
    only; the group keeps the later ones, and the name still belongs to the
    flattened set of the returned policy. *)
Theorem repeated_name_survives_removal
    (p : profile) (gs : list syscall_group) (k : nat) (g : syscall_group)
    (ns : list string) (n : string) (i j : nat) :
  syscalls p = Some gs → gs !! k = Some g → names g = Some ns →
  i ≠ j → ns !! i = Some n → ns !! j = Some n →
  ∃ l1 l2,
    ns = l1 ++ n :: l2 ∧ (n ∉ l1)
    ∧ groups (remove_syscall_from_profile p n) !! k
      = Some {| names := Some (l1 ++ l2); action := action g |}
    ∧ n ∈ l1 ++ l2
    ∧ n ∈ get_all_syscalls (remove_syscall_from_profile p n).
Proof.
  intros Hp Hk Hg Hij Hi Hj.
  destruct (repeated_name_split ns n i j Hij Hi Hj) as (l1 & l2 & -> & Hn1 & Hn2).
  exists l1, l2.
  assert (list_remove n (l1 ++ n :: l2) = Some (l1 ++ l2)) as Hrm.
  { apply list_remove_Some. by exists l1, l2. }
  assert (remove_from_group n g
          = {| names := Some (l1 ++ l2); action := action g |}) as Hg'.
  { unfold remove_from_group. rewrite Hg, Hrm.
    rewrite bool_decide_eq_true_2; [done|].
    rewrite elem_of_app, elem_of_cons. auto. }
  assert (groups (remove_syscall_from_profile p n) !! k
          = Some {| names := Some (l1 ++ l2); action := action g |}) as Hlook.
  { rewrite groups_remove. unfold groups. rewrite Hp. simpl.
    by rewrite list_lookup_fmap, Hk, <- Hg'. }
  assert (n ∈ l1 ++ l2) as Hin by (rewrite elem_of_app; auto).
  split_and!; [done..|].
  apply elem_of_get_all_syscalls. eexists. split.
  - by eapply list_elem_of_lookup_2.
  - done.
Qed.

Lemma repeated_name_survives_removal_witness :
  ∃ l1 l2,
    ["read"; "read"] = l1 ++ "read" :: l2 ∧ ("read" ∉ l1)
    ∧ groups (remove_syscall_from_profile (one_group ["read"; "read"]) "read") !! 0%nat
      = Some {| names := Some (l1 ++ l2); action := "SCMP_ACT_ALLOW" |}
    ∧ "read" ∈ l1 ++ l2
    ∧ "read" ∈ get_all_syscalls
                 (remove_syscall_from_profile (one_group ["read"; "read"]) "read").
Proof.
  apply (repeated_name_survives_removal (one_group ["read"; "read"])
           [ {| names := Some ["read"; "read"]; action := "SCMP_ACT_ALLOW" |} ]
           0 {| names := Some ["read"; "read"]; action := "SCMP_ACT_ALLOW" |}
           ["read"; "read"] "read" 0 1);
    [reflexivity | reflexivity | reflexivity | lia | reflexivity | reflexivity].
Defined.

(** * Trials against the specification *)

Section TrialClaims.

Variable tr : trial_env.

Lemma logged_app t1 t2 : logged (t1 ++ t2) = logged t1 ++ logged t2.
Proof. apply omap_app. Qed.

(** A launch performs no action of the verifier and prints no
    candidate line. *)
Lemma launch_trace_events profile_path :
  Forall (λ ev, is_verifier_event ev = false) (launch_trace tr profile_path)
  ∧ logged (launch_trace tr profile_path) = [].
Proof.
  unfold launch_trace. unfold_prog.
  destruct tr as [? dr di ir dl ? ? ? ? ?]; simpl.
  destruct dr as [[| |]|[]]; simpl; try (split; [repeat constructor|done]);
  destruct di as [[| |]|[]]; simpl; try (split; [repeat constructor|done]);
  destruct ir as [[]|[]]; simpl; try (split; [repeat constructor|done]);
  destruct dl as [?|[]]; simpl; split; (repeat constructor) || done.
Qed.

Lemma verify_trace_logged : logged (verify_trace tr) = [].
Proof.
  unfold verify_trace. unfold_prog.
  destruct tr as [? ? ? ? ? hg hf ha ? ?]; simpl.
  destruct hg as [[]|z1], hf as [[]|z2], ha as [[]|z3]; simpl;
    repeat (case_decide; simpl); done.
Qed.

(** The causes the specification lists for not reaching [Running]. *)
Lemma not_running_causes :
  (∀ rc, docker_run tr = Exited rc → rc ≠ 0%Z →
         launch_reaches_running tr = false)
  ∧ (docker_run tr = ProcRaises TimeoutExpired →
     launch_reaches_running tr = false)
  ∧ (inspect_running tr = inr false → launch_reaches_running tr = false).
Proof.
  unfold launch_reaches_running. split_and!.
  - intros rc -> Hrc. by destruct rc.
  - by intros ->.
  - intros ->. by repeat case_match.
Qed.

(** An exception inside the launch or inside the verifier never leads
    to a verified trial. *)
Lemma trial_raises_not_verified profile_path :
  trial_raises tr profile_path = true →
  launch_reaches_running tr && verification_passes tr = false.
Proof.
  unfold trial_raises, raised, launch_reaches_running, verification_passes.
  unfold_prog.
  destruct tr as [? dr di ir dl hg hf ha ? ?]; simpl.
  destruct dr as [[| |]|[]]; simpl; try done;
  destruct di as [[| |]|[]]; simpl; try done;
  destruct ir as [[]|[]]; simpl; try done;
  try (destruct dl as [?|[]]; simpl; done);
  destruct hg as [[]|z1]; simpl; try done;
  (destruct (decide (z1 ≠ 200%Z)); simpl;
   [ intros _; by rewrite bool_decide_eq_false_2 by congruence | ]);
  destruct hf as [[]|z2]; simpl; rewrite ?andb_false_r; try done;
  (destruct (decide (z2 ≠ 200%Z)); simpl;
   [ intros _; rewrite (bool_decide_eq_false_2 (inr z2 = inr 200%Z)) by congruence;
     by rewrite ?andb_false_r | ]);
  destruct ha as [[]|z3]; simpl; rewrite ?andb_false_r; try done;
  destruct (decide (z3 ≠ 200%Z)); simpl; done.
Qed.

(** Whether the launch, or the verifier, raises does not depend on the
    world it runs in. *)
Lemma raised_any_world profile_path w :
  raised (run_container_try tr profile_path w)
  = raised (run_container_try tr profile_path empty_world)
  ∧ raised (test_web_try tr w) = raised (test_web_try tr empty_world).
Proof.
  unfold raised. unfold_prog.
  destruct tr as [? dr di ir dl hg hf ha ? ?]; simpl. split.
  - destruct dr as [[| |]|[]]; simpl; try done;
    destruct di as [[| |]|[]]; simpl; try done;
    destruct ir as [[]|[]]; simpl; try done;
    destruct dl as [?|[]]; simpl; done.
  - destruct hg as [[]|z1], hf as [[]|z2], ha as [[]|z3]; simpl;
      repeat (case_decide; simpl); done.
Qed.

(** The exceptions the specification names, one by one. *)
Lemma trial_raises_causes profile_path :
  (∀ e, docker_run tr = ProcRaises e → trial_raises tr profile_path = true)
  ∧ (∀ e, docker_run tr = Exited 0 → docker_inspect tr = ProcRaises e →
          trial_raises tr profile_path = true)
  ∧ (∀ e, docker_run tr = Exited 0 → docker_inspect tr = Exited 0 →
          inspect_running tr = inl e → trial_raises tr profile_path = true)
  ∧ (∀ e, launch_reaches_running tr = true → http_get tr = inl e →
          trial_raises tr profile_path = true).
Proof.
  unfold trial_raises, raised, launch_reaches_running. unfold_prog.
  destruct tr as [? dr di ir dl hg hf ha ? ?]; simpl. split_and!.
  - by intros e ->.
  - by intros e -> ->.
  - by intros e -> -> ->.
  - intros e -> ->. simpl. apply orb_true_r.
Qed.


End TrialClaims.

Section IterationClaims.

Variable E : env.
Variables (all_syscalls : list string) (i : nat) (syscall : string).
Variable st : state.

(** The actions of one iteration: the candidate line first, no other
    candidate line after it, and no action of the verifier unless the
    launch reached [Running]. *)
Lemma trial_iteration_trace r st' :
  trial_iteration E all_syscalls i syscall st = (r, st') →
  ∃ evs,
    trace (the_world st')
    = trace (the_world st)
      ++ LogTesting (i + 1) (length all_syscalls) syscall :: evs
    ∧ logged evs = []
    ∧ (launch_reaches_running
         (trial E syscall
            (remove_syscall_from_profile (working_profile st) syscall))
       = false →
       Forall (λ ev, is_verifier_event ev = false) evs).
Proof.
  set (tr := trial E syscall
               (remove_syscall_from_profile (working_profile st) syscall)).
  pose proof (launch_trace_events tr (test_profile_path syscall)) as [Hlv Hll].
  pose proof (verify_trace_logged tr) as Hvl.
  subst tr.
  run_iteration; intros [= <- <-]; reduce_state;
    rewrite <- ?app_assoc;
    (eexists; split; [reflexivity|]);
    (split;
     [ by rewrite ?logged_app, ?Hll, ?Hvl
     | try done; intros _; rewrite ?Forall_app, ?Forall_singleton;
       by split_and? ]).
Qed.

(** The verifier is entered in every trial whose launch reached
    [Running]. *)
Lemma verifier_invoked_when_running r st' :
  trial_iteration E all_syscalls i syscall st = (r, st') →
  save_test (trial E syscall
               (remove_syscall_from_profile (working_profile st) syscall))
  = Saved →
  launch_reaches_running
    (trial E syscall
       (remove_syscall_from_profile (working_profile st) syscall))
  = true →
  TestWeb ∈ trace (the_world st').
Proof.
  set (tr := trial E syscall
               (remove_syscall_from_profile (working_profile st) syscall)).
  assert (TestWeb ∈ verify_trace tr) as Hin.
  { unfold verify_trace. unfold_prog.
    destruct tr as [? ? ? ? ? hg hf ha ? ?]; simpl.
    destruct hg as [[]|z1], hf as [[]|z2], ha as [[]|z3]; simpl;
      repeat (case_decide; simpl); by left. }
  subst tr. intros Hrun Hsave Hlaunch. revert Hrun.
  run_iteration; try done; intros [= <- <-]; reduce_state;
    rewrite ?elem_of_app; tauto.
Qed.


End IterationClaims.

(** Claim C7: in a trial whose launch does not reach [Running] (the launch
    command exits with a non-zero status, times out or raises, the
    inspection fails, or the instance is reported as not running), the
    verifier is never entered and none of its requests is sent. *)
Theorem verifier_not_invoked_without_running
    (E : env) (all_syscalls : list string) (i : nat) (syscall : string)
    (st : state) :
  launch_reaches_running
    (trial E syscall (remove_syscall_from_profile (working_profile st) syscall))
  = false →
  ∃ evs,
    trace (the_world (trial_iteration E all_syscalls i syscall st).2)
    = trace (the_world st) ++ evs
    ∧ Forall (λ ev, is_verifier_event ev = false) evs.
Proof.
  intros Hlaunch.
  destruct (trial_iteration E all_syscalls i syscall st) as [r st'] eqn:Hrun.
  apply trial_iteration_trace in Hrun as (evs & Htrace & _ & Hquiet).
  eexists. split; [exact Htrace|].
  apply Forall_cons. split; [done | by apply Hquiet].
Qed.

Lemma verifier_not_invoked_without_running_witness :
  ∃ evs,
    trace (the_world
             (trial_iteration (launch_timeout_env scenario_profile)
                (get_all_syscalls scenario_profile) 0 "futex"
                (loop_entry scenario_profile empty_world)).2)
    = trace (the_world (loop_entry scenario_profile empty_world)) ++ evs
    ∧ Forall (λ ev, is_verifier_event ev = false) evs.
Proof.
  apply (verifier_not_invoked_without_running
           (launch_timeout_env scenario_profile)
           (get_all_syscalls scenario_profile) 0 "futex"
           (loop_entry scenario_profile empty_world)).
  reflexivity.
Defined.

(** When the trial of a candidate was started and an exception is raised
    during its launch, its running-state probe or its functional
    verification, the iteration ends normally, the candidate belongs to the
    necessary set and the working policy in memory has not changed; the file
    seccomp.json has not changed either when the trial policy path stands
    for another file. *)
Lemma raising_trial_marks_necessary
    (E : env) (all_syscalls : list string) (i : nat) (syscall : string)
    (st : state) :
  let tr := trial E syscall
              (remove_syscall_from_profile (working_profile st) syscall) in
  let out := trial_iteration E all_syscalls i syscall st in
  save_test tr = Saved →
  trial_raises tr (test_profile_path syscall) = true →
  out.1 = inr tt
  ∧ syscall ∈ necessary_syscalls out.2
  ∧ working_profile out.2 = working_profile st
  ∧ (¬ same_file (the_world st) (test_profile_path syscall)
         working_profile_path →
     working_file out.2 = working_file st).
Proof.
  intros tr out Hsave Hraise. subst out.
  destruct (trial_iteration E all_syscalls i syscall st) as [r st'] eqn:Hrun.
  pose proof (trial_iteration_verdict_file E all_syscalls i syscall st r st'
                Hrun) as Hfile.
  apply trial_iteration_verdict in Hrun. revert Hrun Hfile. cbv zeta. fold tr.
  unfold trial_verdict. rewrite Hsave.
  rewrite (trial_raises_not_verified tr _ Hraise).
  intros (-> & Hw & Hn) Hfile. simpl. split_and!; [done| |done..].
  rewrite Hn. apply elem_of_union_r. by apply elem_of_singleton.
Qed.

Example raising_trial_marks_necessary_futex :
  let st := loop_entry scenario_profile nested_world in
  let out := trial_iteration (launch_timeout_env scenario_profile)
               (get_all_syscalls scenario_profile) 0 "futex" st in
  out.1 = inr tt
  ∧ "futex" ∈ necessary_syscalls out.2
  ∧ working_profile out.2 = working_profile st
  ∧ working_file out.2 = working_file st.
Proof.
  destruct (raising_trial_marks_necessary (launch_timeout_env scenario_profile)
              (get_all_syscalls scenario_profile) 0 "futex"
              (loop_entry scenario_profile nested_world))
    as (Hr & Hn & Hw & Hf); [reflexivity..|].
  split_and!; [done..|]. apply Hf. vm_compute. discriminate.
Qed.

(** Claim C6 does not hold of the program for every candidate.  The trial
    policy path is built from the candidate's name, and for the name
    x/../seccomp, in a directory that has a subdirectory seccomp_test_x, it
    stands for seccomp.json itself.  When the launch of that trial runs into
    its timeout, the candidate is marked necessary and the working policy in
    memory is kept, as the claim says; but seccomp.json, which held the
    working policy, has been overwritten with the trial policy and then
    deleted, and the run completes without it. *)
Theorem raising_trial_destroys_working_file :
  let E := launch_timeout_env escaping_profile in
  let all_syscalls := get_all_syscalls escaping_profile in
  let st := (trial_iteration E all_syscalls 0 "read"
               (loop_entry escaping_profile nested_world)).2 in
  let test_profile := remove_syscall_from_profile (working_profile st)
                        escaping_name in
  let tr := trial E escaping_name test_profile in
  let out := trial_iteration E all_syscalls 1 escaping_name st in
  all_syscalls = ["read"; escaping_name]
  ∧ save_test tr = Saved
  ∧ trial_raises tr (test_profile_path escaping_name) = true
  ∧ same_file (the_world st) (test_profile_path escaping_name)
      working_profile_path
  ∧ out.1 = inr tt
  ∧ escaping_name ∈ necessary_syscalls out.2
  ∧ working_profile out.2 = working_profile st
  ∧ working_file st = Some (working_profile st)
  ∧ working_file out.2 = None
  ∧ Save (test_profile_path escaping_name) test_profile
    ∈ trace (the_world out.2)
  ∧ last (trace (the_world out.2))
    = Some (OsRemove (test_profile_path escaping_name))
  ∧ ∃ rep w',
      minimize_seccomp_profile E nested_world = (inr rep, w')
      ∧ final_profile rep = escaping_profile
      ∧ files w' !! working_profile_path = None
      ∧ files w' !! minimized_profile_path = Some escaping_profile.
Proof.
  cbv zeta. split_and!; try (vm_compute; reflexivity);
    try decide_by_evaluation.
  eexists {| final_profile := escaping_profile;
             necessary := {["read"; escaping_name]} |}, _.
  split_and!; [vm_compute; reflexivity | reflexivity | |];
    vm_compute; reflexivity.
Qed.

(** * The loop against the specification *)

Section LoopClaims.

Variable E : env.
Variable all_syscalls : list string.

Lemma narrows_refl st : narrows st st.
Proof. by split. Qed.

Lemma narrows_trans st1 st2 st3 :
  narrows st1 st2 → narrows st2 st3 → narrows st1 st3.
Proof. intros [H1 L1] [H2 L2]. split; [auto | lia]. Qed.

Lemma trial_iteration_narrows i c st :
  narrows st (trial_iteration E all_syscalls i c st).2.
Proof.
  destruct (trial_iteration E all_syscalls i c st) as [r st'] eqn:Hrun.
  apply trial_iteration_working in Hrun as [Hw|Hw]; simpl; unfold narrows;
    rewrite Hw; [by split|]. split.
  - intros x. apply get_all_syscalls_remove_subseteq.
  - apply get_all_syscalls_remove_length.
Qed.

Lemma for_each_narrows rest i st :
  narrows st (for_each E all_syscalls i rest st).2.
Proof.
  apply for_each_preserves;
    [apply narrows_refl | apply narrows_trans | apply trial_iteration_narrows].
Qed.

(** The candidate lines of a completed loop are those of its list. *)
Lemma for_each_logged rest i st st' :
  for_each E all_syscalls i rest st = (inr tt, st') →
  logged (trace (the_world st'))
  = logged (trace (the_world st))
    ++ candidate_lines (length all_syscalls) i rest.
Proof.
  revert i st. induction rest as [|c rest IH]; intros i st; simpl.
  - intros [= <-]. by rewrite app_nil_r.
  - unfold bind.
    destruct (trial_iteration E all_syscalls i c st) as [[e|[]] st1] eqn:Hit;
      [done|].
    intros Hrest. apply IH in Hrest. rewrite Hrest.
    apply trial_iteration_trace in Hit as (evs & -> & Hevs & _).
    rewrite logged_app. simpl. rewrite Hevs, <- app_assoc. simpl.
    f_equal. unfold candidate_lines. rewrite imap_cons. f_equal.
    { do 2 f_equal. lia. }
    apply imap_ext. intros k x _. simpl. do 2 f_equal. lia.
Qed.

(** An exception inside the [try] block of the loop body leaves the
    candidate in the necessary set. *)
Lemma try_block_raises_necessary i c st r st' :
  let tr := trial E c (remove_syscall_from_profile (working_profile st) c) in
  trial_iteration E all_syscalls i c st = (r, st') →
  save_test tr = Saved →
  try_block_raises tr (test_profile_path c) = true →
  r = inr tt ∧ c ∈ necessary_syscalls st'.
Proof.
  intros tr Hrun Hsave Hraise.
  apply trial_iteration_verdict in Hrun. revert Hrun. cbv zeta. fold tr.
  unfold trial_verdict. rewrite Hsave.
  unfold try_block_raises in Hraise.
  apply orb_true_iff in Hraise as [Hraise|Hraise].
  - rewrite (trial_raises_not_verified tr _ Hraise).
    intros (-> & _ & ->). split; [done|].
    apply elem_of_union_r. by apply elem_of_singleton.
  - apply andb_true_iff in Hraise as [-> Hw].
    destruct (save_working tr); [done|].
    intros (-> & _ & ->). split; [done|].
    apply elem_of_union_r. by apply elem_of_singleton.
Qed.

End LoopClaims.

(** Claim C4: across every iteration, and across every stretch of the
    loop however it ends, the flattened syscall set of the working policy
    gains no name and its size does not grow; the flattened set of the
    final policy of a completed run is included in the baseline's. *)
Theorem working_policy_only_narrows (E : env) :
  (∀ all_syscalls i c st,
     narrows st (trial_iteration E all_syscalls i c st).2)
  ∧ (∀ all_syscalls i rest st,
       narrows st (for_each E all_syscalls i rest st).2)
  ∧ (∀ w baseline rep w',
       load_default E = inr baseline →
       minimize_seccomp_profile E w = (inr rep, w') →
       (∀ x, x ∈ get_all_syscalls (final_profile rep) →
             x ∈ get_all_syscalls baseline)
       ∧ (length (get_all_syscalls (final_profile rep))
          ≤ length (get_all_syscalls baseline))%nat).
Proof.
  split_and!.
  - intros. apply trial_iteration_narrows.
  - intros. apply for_each_narrows.
  - intros w baseline rep w' Hload Hrun.
    apply minimize_completed in Hrun
      as (baseline' & st & Hload' & Hloop & -> & _).
    rewrite Hload in Hload'. injection Hload' as <-.
    pose proof (for_each_narrows E (get_all_syscalls baseline) 
                  (get_all_syscalls baseline) 0 (loop_entry baseline w)) as Hn.
    rewrite Hloop in Hn. exact Hn.
Qed.

Lemma working_policy_only_narrows_witness :
  (∀ x, x ∈ get_all_syscalls (one_group ["futex"]) →
        x ∈ get_all_syscalls scenario_profile)
  ∧ (length (get_all_syscalls (one_group ["futex"]))
     ≤ length (get_all_syscalls scenario_profile))%nat.
Proof.
  apply (proj2 (proj2 (working_policy_only_narrows
                         (steady_env scenario_profile futex_needed)))
           empty_world scenario_profile
           {| final_profile := one_group ["futex"]; necessary := {["futex"]} |}
           (minimize_seccomp_profile
              (steady_env scenario_profile futex_needed) empty_world).2).
  - reflexivity.
  - vm_compute. reflexivity.
Defined.

(** Claim C8, as the program has it, for a baseline document of the shape
    the program expects (the one [profile] describes).  An exception raised
    inside the [try] block of a trial (teardown, launch, probe,
    verification, writing seccomp.json on a commit) ends the iteration
    normally with the candidate in the necessary set, and the loop goes on
    with the next candidate.  An exception raised while the trial policy
    file of a candidate is written is raised before the [try] block: it
    leaves the iteration, and when the loop reaches such a candidate the
    whole run ends with that exception.  Besides that, a run is aborted only
    by [stop_all_containers], by reading the baseline, by the first write of
    seccomp.json, or by writing seccomp-minimized.json. *)
Theorem trial_errors_and_aborts (E : env) :
  (∀ all_syscalls i c st,
     let tr := trial E c (remove_syscall_from_profile (working_profile st) c) in
     let out := trial_iteration E all_syscalls i c st in
     match save_test tr with
     | Saved =>
         out.1 = inr tt
         ∧ (try_block_raises tr (test_profile_path c) = true →
            c ∈ necessary_syscalls out.2)
         ∧ ∀ rest, for_each E all_syscalls i (c :: rest) st
                   = for_each E all_syscalls (S i) rest out.2
     | SaveRaises e _ =>
         out.1 = inl e
         ∧ ∀ rest, (for_each E all_syscalls i (c :: rest) st).1 = inl e
     end)
  ∧ (∀ w baseline visited c rest st e clobbered,
       stop_all E = None ∨ stop_all E = Some CalledProcessError →
       load_default E = inr baseline →
       save_initial E = Saved →
       get_all_syscalls baseline = visited ++ c :: rest →
       for_each E (get_all_syscalls baseline) 0 visited (loop_entry baseline w)
       = (inr tt, st) →
       save_test (trial E c (remove_syscall_from_profile (working_profile st) c))
       = SaveRaises e clobbered →
       (minimize_seccomp_profile E w).1 = inl e)
  ∧ (∀ w e w',
       minimize_seccomp_profile E w = (inl e, w') →
       (stop_all E = Some e ∧ e ≠ CalledProcessError)
       ∨ load_default E = inl e
       ∨ (∃ clobbered, save_initial E = SaveRaises e clobbered)
       ∨ (∃ baseline c tp clobbered,
            load_default E = inr baseline ∧ c ∈ get_all_syscalls baseline
            ∧ save_test (trial E c tp) = SaveRaises e clobbered)
       ∨ (∃ clobbered, save_final E = SaveRaises e clobbered)).
Proof.
  split_and!.
  - intros all_syscalls i c st tr out. subst out.
    assert (∀ rest, for_each E all_syscalls i (c :: rest) st
                    = match trial_iteration E all_syscalls i c st with
                      | (inl e, st') => (inl e, st')
                      | (inr _, st') => for_each E all_syscalls (S i) rest st'
                      end) as Hstep by done.
    destruct (trial_iteration E all_syscalls i c st) as [r st'] eqn:Hrun.
    cbn [fst snd]. destruct (save_test tr) as [|e cl] eqn:Hsave.
    + assert (r = inr tt) as ->.
      { apply trial_iteration_verdict in Hrun. revert Hrun. cbv zeta. fold tr.
        unfold trial_verdict. rewrite Hsave.
        destruct (_ && _); [destruct (save_working tr)|]; by intros [? _]. }
      split_and!; [done| |done].
      intros Hraise.
      by destruct (try_block_raises_necessary E all_syscalls i c st _ st'
                     Hrun Hsave Hraise).
    + assert (r = inl e) as ->.
      { apply trial_iteration_verdict in Hrun. revert Hrun. cbv zeta. fold tr.
        unfold trial_verdict. rewrite Hsave. by intros [? _]. }
      split; [done|]. intros rest. by rewrite Hstep.
  - intros w baseline visited c rest st e clobbered.
    apply minimize_trial_file_error.
  - intros w e w'. apply minimize_aborted.
Qed.

Lemma trial_errors_and_aborts_witness :
  (minimize_seccomp_profile (trial_file_unwritable scenario_profile)
     empty_world).1
  = inl OtherException.
Proof.
  apply (proj1 (proj2 (trial_errors_and_aborts
                         (trial_file_unwritable scenario_profile)))
           empty_world scenario_profile []
           "futex" ["openat"; "read"; "socket"; "write"]
           (loop_entry scenario_profile empty_world) OtherException false).
  - by left.
  - reflexivity.
  - reflexivity.
  - vm_compute. reflexivity.
  - reflexivity.
  - reflexivity.
Defined.

(** Claim C8 as stated fails: with a baseline that loads and a working
    policy file that can be written, an exception raised while the trial
    policy file of the first candidate is written is not caught; it ends
    the whole run. *)
Lemma trial_file_error_aborts_run :
  load_default (trial_file_unwritable scenario_profile) = inr scenario_profile
  ∧ save_initial (trial_file_unwritable scenario_profile) = Saved
  ∧ save_final (trial_file_unwritable scenario_profile) = Saved
  ∧ (minimize_seccomp_profile
       (trial_file_unwritable scenario_profile) empty_world).1
    = inl OtherException
  ∧ logged (trace (minimize_seccomp_profile
                     (trial_file_unwritable scenario_profile) empty_world).2)
    = [(1, 5, "futex")]%nat.
Proof. split_and!; vm_compute; reflexivity. Qed.

(** Claim C9, as the program has it: the candidates are enumerated once,
    from the baseline, before the loop; a completed run trials exactly
    the names of that list, in its order, and prints for the [k]-th one
    the line [k/total] with the length of that list as [total], whatever
    was committed in between. *)
Theorem candidates_fixed_at_loop_entry
    (E : env) (w : world) (baseline : profile) (rep : report) (w' : world) :
  load_default E = inr baseline →
  minimize_seccomp_profile E w = (inr rep, w') →
  logged (trace w')
  = logged (trace w)
    ++ candidate_lines (length (get_all_syscalls baseline)) 0
         (get_all_syscalls baseline).
Proof.
  intros Hload Hrun.
  apply minimize_completed in Hrun
    as (baseline' & st & Hload' & Hloop & _ & _ & _ & ->).
  rewrite Hload in Hload'. injection Hload' as <-.
  apply for_each_logged in Hloop. rewrite logged_app, Hloop. simpl.
  rewrite logged_app. simpl. by rewrite !app_nil_r.
Qed.

Lemma candidates_fixed_at_loop_entry_witness :
  logged (trace (minimize_seccomp_profile
                   (steady_env scenario_profile futex_needed) empty_world).2)
  = logged (trace empty_world)
    ++ candidate_lines (length (get_all_syscalls scenario_profile)) 0
         (get_all_syscalls scenario_profile).
Proof.
  apply (candidates_fixed_at_loop_entry
           (steady_env scenario_profile futex_needed) empty_world
           scenario_profile
           {| final_profile := one_group ["futex"]; necessary := {["futex"]} |}).
  - reflexivity.
  - vm_compute. reflexivity.
Defined.

(** Claim C9 as stated fails: after the commit that removes ["read"] the
    working policy enumerates to the single name ["write"], yet the second
    iteration takes the element at index 1 of a list of length 2, the list
    computed from the baseline. *)
Lemma candidates_not_enumerated_from_working_policy :
  let baseline := one_group ["read"; "write"] in
  let E := steady_env baseline (λ _, true) in
  let all_syscalls := get_all_syscalls baseline in
  let st1 := (trial_iteration E all_syscalls 0 "read"
                (loop_entry baseline empty_world)).2 in
  get_all_syscalls (working_profile st1) = ["write"]
  ∧ logged (trace (the_world (trial_iteration E all_syscalls 1 "write" st1).2))
    = [(1, 2, "read"); (2, 2, "write")]%nat
  ∧ logged (trace (minimize_seccomp_profile E empty_world).2)
    = [(1, 2, "read"); (2, 2, "write")]%nat
  ∧ ¬ enumerated_from (get_all_syscalls (working_profile st1))
        (2, 2, "write")%nat
  ∧ enumerated_from all_syscalls (2, 2, "write")%nat.
Proof.
  cbv zeta. split_and!; try (vm_compute; reflexivity).
  - intros [Hlen _]. vm_compute in Hlen. discriminate.
  - split; vm_compute; reflexivity.
Qed.

(** * Whole runs against the specification *)

Section RunClaims.

Variable E : env.

(** A run in which nothing fails outside the trials ends as its loop
    does, with the report and the final policy file. *)
Lemma minimize_run w baseline st :
  stop_all E = None → load_default E = inr baseline →
  save_initial E = Saved → save_final E = Saved →
  for_each E (get_all_syscalls baseline) 0 (get_all_syscalls baseline)
    (loop_entry baseline w) = (inr tt, st) →
  ∃ w',
    minimize_seccomp_profile E w
    = (inr {| final_profile := working_profile st;
              necessary := necessary_syscalls st |}, w')
    ∧ files w' !! minimized_profile_path = Some (working_profile st).
Proof.
  intros Hstop Hload Hinit Hfinal Hloop.
  unfold minimize_seccomp_profile, stop_all_containers, load_seccomp_profile.
  unfold_prog. rewrite Hstop, Hload, Hinit. simpl.
  rewrite <- !app_assoc. simpl. fold (loop_entry baseline w).
  rewrite Hloop, Hfinal. simpl. eexists. split; [reflexivity|].
  cbn [files]. files_by_path.
Qed.

Variable all_syscalls : list string.

Lemma trial_iteration_commit i c st :
  trial_verdict (trial E c (remove_syscall_from_profile (working_profile st) c))
  = Commit →
  ∃ st', trial_iteration E all_syscalls i c st = (inr tt, st')
         ∧ working_profile st'
           = remove_syscall_from_profile (working_profile st) c
         ∧ necessary_syscalls st' = necessary_syscalls st.
Proof.
  intros Hv.
  destruct (trial_iteration E all_syscalls i c st) as [r st'] eqn:Hrun.
  apply trial_iteration_verdict in Hrun. revert Hrun. cbv zeta. rewrite Hv.
  intros (-> & ? & ?). by exists st'.
Qed.

Lemma trial_iteration_keep i c st :
  trial_verdict (trial E c (remove_syscall_from_profile (working_profile st) c))
  = Keep →
  ∃ st', trial_iteration E all_syscalls i c st = (inr tt, st')
         ∧ working_profile st' = working_profile st
         ∧ necessary_syscalls st' = necessary_syscalls st ∪ {[c]}.
Proof.
  intros Hv.
  destruct (trial_iteration E all_syscalls i c st) as [r st'] eqn:Hrun.
  apply trial_iteration_verdict in Hrun. revert Hrun. cbv zeta. rewrite Hv.
  intros (-> & ? & ?). by exists st'.
Qed.

(** The loop under a service that launches under every policy and works
    exactly under the policies that still list [needed]: every candidate
    but [needed] is removed, and [needed] alone is marked necessary. *)
Lemma for_each_keeps_needed (needed : string) rest :
  (∀ c tp, save_test (trial E c tp) = Saved
           ∧ save_working (trial E c tp) = Saved) →
  (∀ c tp, launch_reaches_running (trial E c tp) = true) →
  (∀ c tp, verification_passes (trial E c tp) = true
           ↔ needed ∈ get_all_syscalls tp) →
  ∀ i st,
    names_unique (working_profile st) →
    needed ∈ get_all_syscalls (working_profile st) →
    ∃ st',
      for_each E all_syscalls i rest st = (inr tt, st')
      ∧ (∀ x, x ∈ get_all_syscalls (working_profile st')
              ↔ x ∈ get_all_syscalls (working_profile st)
                ∧ (x ∈ rest → x = needed))
      ∧ (∀ x, x ∈ necessary_syscalls st'
              ↔ x ∈ necessary_syscalls st ∨ (x = needed ∧ needed ∈ rest)).
Proof.
  intros Hio Hlaunch Hverify.
  induction rest as [|c rest IH]; intros i st Hu Hin; simpl.
  - exists st. split; [done|]. split; intros x.
    + rewrite elem_of_nil. tauto.
    + rewrite elem_of_nil. tauto.
  - set (tp := remove_syscall_from_profile (working_profile st) c).
    destruct (Hio c tp) as [Hst Hsw]. unfold bind.
    destruct (decide (c = needed)) as [->|Hne].
    + assert (trial_verdict (trial E needed tp) = Keep) as Hv.
      { unfold trial_verdict. rewrite Hst, Hlaunch. simpl.
        destruct (verification_passes _) eqn:Hp; [|done].
        apply Hverify in Hp. by apply get_all_syscalls_remove_unique in Hp. }
      destruct (trial_iteration_keep i needed st Hv) as (st1 & -> & Hw1 & Hn1).
      destruct (IH (S i) st1) as (st' & -> & Hw' & Hn'); [by rewrite Hw1..|].
      exists st'. split; [done|]. split; intros x.
      * rewrite Hw', Hw1, elem_of_cons. intuition congruence.
      * rewrite Hn', Hn1, elem_of_union, elem_of_singleton, elem_of_cons.
        intuition congruence.
    + assert (needed ∈ get_all_syscalls tp) as Hin'.
      { apply get_all_syscalls_remove_other; [congruence | done]. }
      assert (trial_verdict (trial E c tp) = Commit) as Hv.
      { unfold trial_verdict. rewrite Hst, Hlaunch, Hsw. simpl.
        by rewrite (proj2 (Hverify c tp) Hin'). }
      destruct (trial_iteration_commit i c st Hv) as (st1 & -> & Hw1 & Hn1).
      destruct (IH (S i) st1) as (st' & -> & Hw' & Hn');
        [rewrite Hw1; by apply names_unique_remove | by rewrite Hw1 |].
      exists st'. split; [done|]. split; intros x.
      * rewrite Hw', Hw1. fold tp.
        unfold tp at 1. rewrite get_all_syscalls_remove_iff by done.
        rewrite elem_of_cons. intuition congruence.
      * rewrite Hn', Hn1, elem_of_cons. intuition congruence.
Qed.

End RunClaims.

(** Claim C2: for a baseline whose flattened syscall set is
    {read, write, openat, futex, socket}, every name occurring once, under
    a runtime in which nothing fails outside the trials, every launch
    reaches [Running] and the verification passes exactly when futex is in
    the flattened set of the trial policy, the run completes, the necessary
    set is {futex}, and the policy written to seccomp-minimized.json has
    the flattened set {futex}. *)
Theorem futex_scenario (E : env) (w : world) (baseline : profile) :
  io_steady E →
  load_default E = inr baseline →
  (∀ x, x ∈ get_all_syscalls baseline
        ↔ x ∈ ["read"; "write"; "openat"; "futex"; "socket"]) →
  NoDup (extended_names baseline) →
  (∀ c tp, launch_reaches_running (trial E c tp) = true) →
  (∀ c tp, verification_passes (trial E c tp) = true
           ↔ "futex" ∈ get_all_syscalls tp) →
  ∃ rep w',
    minimize_seccomp_profile E w = (inr rep, w')
    ∧ necessary rep = {["futex"]}
    ∧ get_all_syscalls (final_profile rep) = ["futex"]
    ∧ files w' !! minimized_profile_path = Some (final_profile rep).
Proof.
  intros (Hstop & Hinit & Hfinal & Hio) Hload Hset Hnodup Hlaunch Hverify.
  assert ("futex" ∈ get_all_syscalls baseline) as Hfutex.
  { apply Hset. rewrite !elem_of_cons. auto. }
  destruct (for_each_keeps_needed E (get_all_syscalls baseline) "futex"
              (get_all_syscalls baseline) Hio Hlaunch Hverify 0
              (loop_entry baseline w))
    as (st & Hloop & Hw & Hn);
    [by apply NoDup_extended_names_unique | done |].
  destruct (minimize_run E w baseline st Hstop Hload Hinit Hfinal Hloop)
    as (w' & Hrun & Hfile).
  eexists _, w'. split; [exact Hrun|]. simpl. split_and!; [| |done].
  - apply set_eq. intros x. rewrite Hn, elem_of_singleton. simpl.
    rewrite elem_of_empty. intuition.
  - assert (get_all_syscalls (working_profile st) ≡ₚ ["futex"]) as Hperm.
    { apply NoDup_Permutation;
        [apply NoDup_get_all_syscalls | apply NoDup_singleton |].
      intros x. rewrite Hw, list_elem_of_singleton. simpl.
      intuition congruence. }
    by apply Permutation_singleton_r in Hperm.
Qed.

Lemma futex_scenario_witness :
  ∃ rep w',
    minimize_seccomp_profile (steady_env scenario_profile futex_needed)
      empty_world = (inr rep, w')
    ∧ necessary rep = {["futex"]}
    ∧ get_all_syscalls (final_profile rep) = ["futex"]
    ∧ files w' !! minimized_profile_path = Some (final_profile rep).
Proof.
  apply (futex_scenario (steady_env scenario_profile futex_needed) empty_world
           scenario_profile).
  - repeat split.
  - reflexivity.
  - intros x. vm_compute get_all_syscalls. rewrite !elem_of_cons. tauto.
  - vm_compute. repeat constructor; rewrite ?elem_of_cons, ?elem_of_nil;
      intuition discriminate.
  - intros c tp. reflexivity.
  - intros c tp. cbn [trial steady_env]. unfold futex_needed.
    case_bool_decide as Hb.
    + split; [done | intros _; reflexivity].
    + split; [intros Hp; vm_compute in Hp; discriminate | done].
Defined.

Section PartitionClaims.

Variable E : env.

Hypothesis commits_saved : ∀ c tp, save_working (trial E c tp) = Saved.

(** Under unique names and without a failed write of seccomp.json, the
    loop splits the candidates it visits: a visited candidate is left in
    the working policy exactly when it is marked necessary. *)
Lemma for_each_partition all_syscalls rest :
  ∀ i st st',
    for_each E all_syscalls i rest st = (inr tt, st') →
    names_unique (working_profile st) →
    NoDup rest →
    (∀ x, x ∈ rest → x ∈ get_all_syscalls (working_profile st)) →
    (∀ x, x ∈ get_all_syscalls (working_profile st') →
          x ∈ get_all_syscalls (working_profile st))
    ∧ (∀ x, x ∈ get_all_syscalls (working_profile st) → x ∉ rest →
            x ∈ get_all_syscalls (working_profile st'))
    ∧ (∀ x, x ∈ necessary_syscalls st'
            ↔ x ∈ necessary_syscalls st
              ∨ (x ∈ rest ∧ x ∈ get_all_syscalls (working_profile st'))).
Proof.
  induction rest as [|c rest IH]; intros i st st'; simpl.
  - intros [= <-] _ _ _. split_and!; [done..|].
    intros x. rewrite elem_of_nil. tauto.
  - unfold bind.
    destruct (trial_iteration E all_syscalls i c st) as [[e|[]] st1] eqn:Hit;
      [done|].
    intros Hrest Hu [Hc Hnd]%NoDup_cons Hin.
    apply trial_iteration_verdict in Hit. revert Hit. cbv zeta.
    set (tp := remove_syscall_from_profile (working_profile st) c).
    assert (c ∈ get_all_syscalls (working_profile st)) as Hcw
      by (apply Hin; left).
    unfold trial_verdict. rewrite commits_saved.
    destruct (save_test _); [|by intros [? _]].
    destruct (_ && _).
    + intros (_ & Hw1 & Hn1).
      assert (c ∉ get_all_syscalls tp) as Hgone
        by (by apply get_all_syscalls_remove_unique).
      destruct (IH (S i) st1 st' Hrest) as (H1 & H2 & H3).
      { rewrite Hw1. by apply names_unique_remove. }
      { done. }
      { intros x Hx. rewrite Hw1. apply get_all_syscalls_remove_other.
        - intros ->. contradiction.
        - apply Hin. by right. }
      rewrite Hw1 in H1, H2. split_and!.
      * intros x Hx. by eapply get_all_syscalls_remove_subseteq, H1.
      * intros x Hx [Hxc Hxr]%not_elem_of_cons.
        apply H2; [|done]. by apply get_all_syscalls_remove_other.
      * intros x. rewrite H3, Hn1, elem_of_cons. split; [tauto|].
        intros [?|[[-> | ?] Hx]]; [tauto | | tauto].
        apply H1 in Hx. contradiction.
    + intros (_ & Hw1 & Hn1).
      destruct (IH (S i) st1 st' Hrest) as (H1 & H2 & H3).
      { by rewrite Hw1. }
      { done. }
      { intros x Hx. rewrite Hw1. apply Hin. by right. }
      rewrite Hw1 in H1, H2. split_and!.
      * done.
      * intros x Hx [Hxc Hxr]%not_elem_of_cons. by apply H2.
      * intros x.
        rewrite H3, Hn1, elem_of_union, elem_of_singleton, elem_of_cons.
        split; [|tauto]. intros [[? | ->]|?]; [tauto| |tauto].
        right. split; [by left|]. by apply H2.
Qed.

(** What claim C3 asks for holds on the baselines in which no group
    lists a name twice, as long as no write of seccomp.json fails. *)
Lemma partition_unique_names w baseline rep w' :
  load_default E = inr baseline →
  names_unique baseline →
  minimize_seccomp_profile E w = (inr rep, w') →
  necessary rep ## removed_set baseline (final_profile rep)
  ∧ necessary rep ∪ removed_set baseline (final_profile rep)
    = list_to_set (get_all_syscalls baseline).
Proof.
  intros Hload Hu Hrun.
  apply minimize_completed in Hrun
    as (baseline' & st & Hload' & Hloop & -> & -> & _).
  rewrite Hload in Hload'. injection Hload' as <-.
  apply for_each_partition in Hloop as (H1 & H2 & H3);
    [|done|apply NoDup_get_all_syscalls|done].
  simpl in *. unfold removed_set. split.
  - intros x Hn Hr. apply H3 in Hn as [Hn|[_ Hn]]; [by apply elem_of_empty in Hn|].
    apply elem_of_difference in Hr as [_ Hr]. apply Hr.
    by apply elem_of_list_to_set.
  - apply set_eq. intros x.
    rewrite elem_of_union, elem_of_difference, !elem_of_list_to_set, H3.
    rewrite elem_of_empty.
    destruct (decide (x ∈ get_all_syscalls (working_profile st))); tauto.
Qed.

End PartitionClaims.

(** Claim C3 (at run end the necessary set and the removed set are
    disjoint and their union is the baseline's flattened set).  The program
    does not keep this for a baseline with the group
    [["read", "read", "write"]] and a service that needs read and write:
    the trial of read cuts out one of the two occurrences, the service
    still works, so read is neither marked necessary nor absent from the
    final policy. *)
Theorem repeated_name_breaks_partition :
  let baseline := one_group ["read"; "read"; "write"] in
  ∃ rep w',
    minimize_seccomp_profile (steady_env baseline read_write_needed) empty_world
    = (inr rep, w')
    ∧ get_all_syscalls baseline = ["read"; "write"]
    ∧ get_all_syscalls (final_profile rep) = ["read"; "write"]
    ∧ necessary rep = {["write"]}
    ∧ removed_set baseline (final_profile rep) = ∅
    ∧ necessary rep ∪ removed_set baseline (final_profile rep)
      ≠ list_to_set (get_all_syscalls baseline).
Proof.
  cbv zeta.
  exists {| final_profile := one_group ["read"; "write"];
            necessary := {["write"]} |},
         (minimize_seccomp_profile
            (steady_env (one_group ["read"; "read"; "write"]) read_write_needed)
            empty_world).2.
  cbn [final_profile necessary].
  split_and!; try (vm_compute; reflexivity).
  intros Heq.
  apply (f_equal (λ X : gset string, bool_decide ("read" ∈ X))) in Heq.
  vm_compute in Heq. discriminate.
Qed.

(** The second way in which the program misses claim C3: when writing
    seccomp.json fails on a commit, the candidate is already gone from the
    working policy in memory and is marked necessary as well. *)
Example failed_commit_write_breaks_partition :
  let baseline := one_group ["read"] in
  ∃ rep w',
    minimize_seccomp_profile (working_file_unwritable baseline) empty_world
    = (inr rep, w')
    ∧ get_all_syscalls (final_profile rep) = []
    ∧ "read" ∈ necessary rep
    ∧ "read" ∈ removed_set baseline (final_profile rep).
Proof.
  cbv zeta.
  exists {| final_profile := one_group []; necessary := {["read"]} |},
         (minimize_seccomp_profile
            (working_file_unwritable (one_group ["read"])) empty_world).2.
  cbn [final_profile necessary].
  split_and!; try (vm_compute; reflexivity); decide_by_evaluation.
Qed.


(** * Further properties of the profile operations *)

Section OrderFacts.

(** The order of [sorted] is the reflexive closure of the strict
    lexicographic order on strings. *)
Lemma str_le_iff a b :
  str_le a b ↔ a = b ∨ OrderedTypeEx.String_as_OT.lt a b.
Proof.
  unfold str_le, String.leb.
  pose proof (OrderedTypeEx.String_as_OT.cmp_eq a b) as Heq.
  pose proof (OrderedTypeEx.String_as_OT.cmp_lt a b) as Hlt.
  unfold OrderedTypeEx.String_as_OT.cmp in *.
  destruct (String.compare a b); split; try done.
  - intros _. left. by apply Heq.
  - intros _. right. by apply Hlt.
  - intros [H|H]; [by apply Heq in H | by apply Hlt in H].
Qed.

Lemma str_le_transitive : Transitive str_le.
Proof.
  intros a b c. rewrite !str_le_iff. intros [->|Hab] [->|Hbc]; auto.
  right. by eapply OrderedTypeEx.String_as_OT.lt_trans.
Qed.

Lemma str_le_antisymmetric : AntiSymm (=) str_le.
Proof. intros a b. apply String.leb_antisym. Qed.

Lemma str_le_total : Total str_le.
Proof. intros a b. apply String.leb_total. Qed.

Lemma Sorted_sorted_set l : Sorted str_le (sorted_set l).
Proof. apply (@Sorted_merge_sort _ str_le _ str_le_total). Qed.

(** Two sorted lists without repetition that list the same names are
    equal. *)
Lemma sorted_NoDup_unique (l1 l2 : list string) :
  Sorted str_le l1 → Sorted str_le l2 → NoDup l1 → NoDup l2 →
  (∀ x, x ∈ l1 ↔ x ∈ l2) → l1 = l2.
Proof.
  intros Hs1 Hs2 Hn1 Hn2 Hin.
  apply (@Sorted_unique _ str_le str_le_transitive str_le_antisymmetric);
    [done..|].
  by apply NoDup_Permutation.
Qed.

Lemma Sorted_filter (P : string → Prop) `{∀ x, Decision (P x)} l :
  Sorted str_le l → Sorted str_le (filter P l).
Proof.
  intros Hs.
  apply (@Sorted_StronglySorted _ str_le str_le_transitive) in Hs.
  apply StronglySorted_Sorted.
  induction Hs as [|x l Hl IH Hx]; [constructor|].
  rewrite filter_cons. case_decide; [|done]. constructor; [done|].
  apply Forall_forall. intros y [_ Hy]%list_elem_of_filter.
  by eapply Forall_forall in Hx.
Qed.

End OrderFacts.

(** [get_all_syscalls] returns the names in lexical order, each once, and
    lists exactly the names found under a ["names"] key of some entry of
    ["syscalls"]; a missing key contributes nothing. *)
Theorem get_all_syscalls_sorted_exact (p : profile) :
  Sorted str_le (get_all_syscalls p)
  ∧ NoDup (get_all_syscalls p)
  ∧ ∀ x, x ∈ get_all_syscalls p
         ↔ ∃ gs g ns, syscalls p = Some gs ∧ g ∈ gs
                      ∧ names g = Some ns ∧ x ∈ ns.
Proof.
  split_and!.
  - apply Sorted_sorted_set.
  - apply NoDup_get_all_syscalls.
  - intros x. rewrite elem_of_get_all_syscalls. unfold groups, group_names.
    split.
    + intros (g & Hg & Hx). destruct (syscalls p) as [gs|]; simpl in *.
      * destruct (names g) as [ns|] eqn:Hn; simpl in *.
        -- by exists gs, g, ns.
        -- by apply elem_of_nil in Hx.
      * by apply elem_of_nil in Hg.
    + intros (gs & g & ns & -> & Hg & Hn & Hx). exists g. simpl.
      by rewrite Hn.
Qed.

(** The result of [get_all_syscalls] depends on the set of names only:
    neither on the grouping, nor on the order of groups and names, nor on
    repetitions. *)
Theorem get_all_syscalls_canonical (p q : profile) :
  (∀ x, x ∈ extended_names p ↔ x ∈ extended_names q) →
  get_all_syscalls p = get_all_syscalls q.
Proof.
  intros Hsame. unfold get_all_syscalls.
  apply sorted_NoDup_unique.
  - apply Sorted_sorted_set.
  - apply Sorted_sorted_set.
  - apply NoDup_sorted_set.
  - apply NoDup_sorted_set.
  - intros x. by rewrite !elem_of_sorted_set.
Qed.

Lemma get_all_syscalls_canonical_witness :
  get_all_syscalls (one_group ["write"; "read"; "write"])
  = get_all_syscalls
      {| defaultAction := "SCMP_ACT_ERRNO";
         syscalls := Some [ {| names := Some ["read"]; action := "SCMP_ACT_ALLOW" |};
                            {| names := None; action := "SCMP_ACT_ALLOW" |};
                            {| names := Some ["write"]; action := "SCMP_ACT_LOG" |} ] |}.
Proof.
  apply get_all_syscalls_canonical.
  intros x. vm_compute extended_names. rewrite !elem_of_cons, !elem_of_nil.
  tauto.
Defined.

(** On a profile in which no group lists a name twice, the names of the
    profile returned by [remove_syscall_from_profile] are those of the
    input without the removed one, in the same order. *)
Theorem removal_is_difference_unique (p : profile) (n : string) :
  names_unique p →
  get_all_syscalls (remove_syscall_from_profile p n)
  = filter (λ x, x ≠ n) (get_all_syscalls p).
Proof.
  intros Hu. apply sorted_NoDup_unique.
  - apply Sorted_sorted_set.
  - apply Sorted_filter, Sorted_sorted_set.
  - apply NoDup_get_all_syscalls.
  - apply NoDup_filter, NoDup_get_all_syscalls.
  - intros x. rewrite list_elem_of_filter, get_all_syscalls_remove_iff by done.
    tauto.
Qed.

Lemma removal_is_difference_unique_witness :
  get_all_syscalls (remove_syscall_from_profile scenario_profile "openat")
  = filter (λ x, x ≠ "openat") (get_all_syscalls scenario_profile).
Proof.
  apply removal_is_difference_unique.
  unfold names_unique. vm_compute groups. repeat constructor;
    rewrite ?elem_of_cons, ?elem_of_nil; intuition discriminate.
Defined.

Section RemovalFacts.

Implicit Types (p : profile) (g : syscall_group) (n a b : string)
  (ns l : list string).

Lemma names_after_remove_cons n y l :
  names_after_remove n (y :: l)
  = if decide (y = n) then l else y :: names_after_remove n l.
Proof.
  unfold names_after_remove. simpl. case_decide; [done|].
  by destruct (list_remove n l).
Qed.

Lemma names_after_remove_absent n ns :
  n ∉ ns → names_after_remove n ns = ns.
Proof.
  intros Hn. apply list_remove_None in Hn. unfold names_after_remove.
  by rewrite Hn.
Qed.

Lemma names_after_remove_comm a b ns :
  names_after_remove a (names_after_remove b ns)
  = names_after_remove b (names_after_remove a ns).
Proof.
  induction ns as [|y l IH]; [done|].
  rewrite !(names_after_remove_cons _ y l).
  destruct (decide (y = b)) as [Hb|Hb], (decide (y = a)) as [Ha|Ha];
    rewrite ?names_after_remove_cons; repeat case_decide; congruence.
Qed.

Lemma names_after_remove_filter n ns :
  filter (λ x, x ≠ n) (names_after_remove n ns) = filter (λ x, x ≠ n) ns.
Proof.
  induction ns as [|y l IH]; [done|].
  rewrite names_after_remove_cons. case_decide as Hy.
  - subst y. by rewrite (filter_cons_False (λ x, x ≠ n)) by tauto.
  - by rewrite !(filter_cons_True (λ x, x ≠ n)), IH by done.
Qed.

Lemma names_after_remove_Permutation n ns :
  n ∈ ns → n :: names_after_remove n ns ≡ₚ ns.
Proof.
  intros Hin. unfold names_after_remove.
  destruct (list_remove_is_Some n ns Hin) as [l' Hl']. rewrite Hl'. simpl.
  apply list_remove_Some in Hl' as (l1 & l2 & -> & _ & ->).
  apply Permutation_middle.
Qed.

(** The loop body of [remove_syscall_from_profile], field by field. *)
Lemma remove_from_group_fields n g :
  remove_from_group n g
  = {| names := names_after_remove n <$> names g; action := action g |}.
Proof.
  unfold remove_from_group, names_after_remove. destruct g as [[ns|] act]; simpl;
    [|done].
  case_bool_decide as Hin.
  - by destruct (list_remove n ns).
  - apply list_remove_None in Hin. by rewrite Hin.
Qed.

Lemma remove_from_group_comm a b g :
  remove_from_group a (remove_from_group b g)
  = remove_from_group b (remove_from_group a g).
Proof.
  rewrite !remove_from_group_fields. simpl. f_equal.
  destruct (names g) as [ns|]; simpl; [|done].
  by rewrite names_after_remove_comm.
Qed.

End RemovalFacts.

(** [remove_syscall_from_profile] keeps the shape of the document: the
    other keys of the profile, the presence of the ["syscalls"] key, the
    number and order of the groups, each group's action and the presence
    of its ["names"] key.  A group is kept even when its list of names
    becomes empty. *)
Theorem removal_preserves_shape (p : profile) (n : string) :
  defaultAction (remove_syscall_from_profile p n) = defaultAction p
  ∧ (syscalls (remove_syscall_from_profile p n) = None ↔ syscalls p = None)
  ∧ length (groups (remove_syscall_from_profile p n)) = length (groups p)
  ∧ ∀ k g, groups p !! k = Some g →
      ∃ g', groups (remove_syscall_from_profile p n) !! k = Some g'
            ∧ action g' = action g
            ∧ (names g' = None ↔ names g = None)
            ∧ (names g = Some [n] → names g' = Some []).
Proof.
  split_and!.
  - done.
  - simpl. by destruct (syscalls p).
  - by rewrite groups_remove, length_fmap.
  - intros k g Hk. exists (remove_from_group n g). split.
    + by rewrite groups_remove, list_lookup_fmap, Hk.
    + rewrite remove_from_group_fields. simpl. split_and!; [done| |].
      * by destruct (names g).
      * intros ->. simpl. rewrite names_after_remove_cons.
        by rewrite decide_True.
Qed.

(** In each group that has names, [remove_syscall_from_profile] leaves the
    other names with their order and repetitions, and takes away exactly
    one occurrence of the removed name if there is one. *)
Theorem removal_cuts_one_occurrence
    (p : profile) (n : string) (k : nat) (g : syscall_group)
    (ns : list string) :
  groups p !! k = Some g → names g = Some ns →
  ∃ g' ns',
    groups (remove_syscall_from_profile p n) !! k = Some g'
    ∧ names g' = Some ns'
    ∧ filter (λ x, x ≠ n) ns' = filter (λ x, x ≠ n) ns
    ∧ (n ∈ ns → n :: ns' ≡ₚ ns)
    ∧ (n ∉ ns → ns' = ns).
Proof.
  intros Hk Hns.
  exists (remove_from_group n g), (names_after_remove n ns). split_and!.
  - by rewrite groups_remove, list_lookup_fmap, Hk.
  - by rewrite remove_from_group_fields, Hns.
  - apply names_after_remove_filter.
  - apply names_after_remove_Permutation.
  - apply names_after_remove_absent.
Qed.

Lemma removal_cuts_one_occurrence_witness :
  ∃ g' ns',
    groups (remove_syscall_from_profile
              (one_group ["write"; "read"; "openat"; "read"]) "read") !! 0%nat
    = Some g'
    ∧ names g' = Some ns'
    ∧ filter (λ x, x ≠ "read") ns'
      = filter (λ x, x ≠ "read") ["write"; "read"; "openat"; "read"]
    ∧ ("read" ∈ ["write"; "read"; "openat"; "read"] →
       "read" :: ns' ≡ₚ ["write"; "read"; "openat"; "read"])
    ∧ ("read" ∉ ["write"; "read"; "openat"; "read"] →
       ns' = ["write"; "read"; "openat"; "read"]).
Proof.
  apply (removal_cuts_one_occurrence
           (one_group ["write"; "read"; "openat"; "read"]) "read" 0
           {| names := Some ["write"; "read"; "openat"; "read"];
              action := "SCMP_ACT_ALLOW" |});
    reflexivity.
Defined.

(** Removing a name that the profile does not list returns the profile
    unchanged. *)
Theorem removal_of_absent_name (p : profile) (n : string) :
  n ∉ get_all_syscalls p → remove_syscall_from_profile p n = p.
Proof.
  intros Hn. destruct p as [da sc]. unfold remove_syscall_from_profile. simpl.
  f_equal. destruct sc as [gs|]; simpl; [|done]. f_equal.
  assert (∀ g, g ∈ gs → n ∉ group_names g) as Hg.
  { intros g Hg Hx. apply Hn, elem_of_get_all_syscalls. by exists g. }
  clear Hn. induction gs as [|g gs IH]; simpl; [done|]. f_equal.
  - apply remove_from_group_absent, Hg. by left.
  - apply IH. intros g' Hg'. apply Hg. by right.
Qed.

Lemma removal_of_absent_name_witness :
  remove_syscall_from_profile scenario_profile "mmap" = scenario_profile.
Proof.
  apply removal_of_absent_name. vm_compute get_all_syscalls.
  rewrite !not_elem_of_cons. split_and!; (discriminate || apply not_elem_of_nil).
Defined.

(** Removals commute: the order in which two names are removed does not
    matter, repeated names included. *)
Theorem removal_commutes (p : profile) (a b : string) :
  remove_syscall_from_profile (remove_syscall_from_profile p a) b
  = remove_syscall_from_profile (remove_syscall_from_profile p b) a.
Proof.
  unfold remove_syscall_from_profile. simpl. f_equal.
  destruct (syscalls p) as [gs|]; simpl; [|done]. f_equal.
  induction gs as [|g gs IH]; simpl; [done|].
  by rewrite IH, remove_from_group_comm.
Qed.

(** * Further properties of the launch and of the verifier *)

(** [run_container_with_profile] never raises, whatever the runtime
    answers, and writes no file.  It returns [True] exactly when the launch
    command and the inspection exit with 0 and the instance is reported
    running.  Its actions are an initial stretch of: launch, wait, inspect,
    fetch the logs; it waits only after a launch that exited with 0, and
    fetches the logs only of an instance reported as not running. *)
Theorem run_container_never_raises
    (tr : trial_env) (profile_path : string) (w : world) :
  ∃ evs,
    run_container_with_profile tr profile_path w
    = (inr (launch_reaches_running tr),
       {| files := files w; trace := trace w ++ evs |})
    ∧ evs `prefix_of` [DockerRun profile_path; Sleep; DockerInspect; DockerLogs]
    ∧ DockerRun profile_path ∈ evs
    ∧ (Sleep ∈ evs ↔ docker_run tr = Exited 0)
    ∧ (DockerLogs ∈ evs
       ↔ docker_run tr = Exited 0 ∧ docker_inspect tr = Exited 0
         ∧ inspect_running tr = inr false).
Proof.
  exists (launch_trace tr profile_path).
  split; [apply run_container_with_profile_spec|].
  unfold launch_trace. unfold_prog.
  destruct tr as [? dr di ir dl ? ? ? ? ?]; simpl.
  destruct dr as [[| |]|[]]; simpl;
    try (split_and!; [by eexists | by left
                      | rewrite ?elem_of_cons, ?elem_of_nil; intuition discriminate
                      | rewrite ?elem_of_cons, ?elem_of_nil; intuition discriminate]);
  destruct di as [[| |]|[]]; simpl;
    try (split_and!; [by eexists | by left
                      | rewrite ?elem_of_cons, ?elem_of_nil; intuition discriminate
                      | rewrite ?elem_of_cons, ?elem_of_nil; intuition discriminate]);
  destruct ir as [[]|[]]; simpl;
    try (split_and!; [by eexists | by left
                      | rewrite ?elem_of_cons, ?elem_of_nil; intuition discriminate
                      | rewrite ?elem_of_cons, ?elem_of_nil; intuition discriminate]);
  destruct dl as [?|[]]; simpl;
    (split_and!; [by eexists | by left
                  | rewrite ?elem_of_cons, ?elem_of_nil; intuition discriminate
                  | rewrite ?elem_of_cons, ?elem_of_nil; intuition discriminate]).
Qed.

(** [test_web_functionality] never raises and writes no file.  It returns
    [True] exactly when the three requests answer 200.  It always sends
    the first request, sends the second only after a 200 to the first and
    the third only after a 200 to the first two, in this order. *)
Theorem test_web_functionality_short_circuits (tr : trial_env) (w : world) :
  ∃ evs,
    test_web_functionality tr w
    = (inr (verification_passes tr),
       {| files := files w; trace := trace w ++ TestWeb :: evs |})
    ∧ evs `prefix_of` [HttpGet; HttpPostForm; HttpPostApi]
    ∧ HttpGet ∈ evs
    ∧ (HttpPostForm ∈ evs ↔ http_get tr = inr 200%Z)
    ∧ (HttpPostApi ∈ evs
       ↔ http_get tr = inr 200%Z ∧ http_post_form tr = inr 200%Z).
Proof.
  exists (tail (verify_trace tr)).
  assert (verify_trace tr = TestWeb :: tail (verify_trace tr)) as Hhead.
  { unfold verify_trace. unfold_prog.
    destruct tr as [? ? ? ? ? hg hf ha ? ?]; simpl.
    destruct hg as [[]|z1], hf as [[]|z2], ha as [[]|z3]; simpl;
      repeat (case_decide; simpl); done. }
  split; [rewrite <- Hhead; apply test_web_functionality_spec|].
  clear Hhead. unfold verify_trace. unfold_prog.
  destruct tr as [? ? ? ? ? hg hf ha ? ?]; simpl.
  destruct hg as [[]|z1], hf as [[]|z2], ha as [[]|z3]; simpl;
    repeat (case_decide; simpl);
    (split_and!;
     [ by eexists | by left
     | rewrite ?elem_of_cons, ?elem_of_nil; intuition (discriminate || congruence)
     | rewrite ?elem_of_cons, ?elem_of_nil; intuition (discriminate || congruence) ]).
Qed.


(** * Teardown, command by command *)

Section TeardownFacts.

Import Teardown.

Variable rt : runtime.

Lemma split_lines_not_nil s : split_lines s ≠ [].
Proof.
  destruct s as [|c s]; simpl; [done|].
  destruct (Ascii.eqb c "010"); [done|]. by destruct (split_lines s).
Qed.

(** Joining the lines with newlines gives the text back, and no line
    holds a newline. *)
Lemma split_lines_join s :
  String.concat Teardown.newline (split_lines s) = s
  ∧ Forall (λ line, index 0 Teardown.newline line = None) (split_lines s).
Proof.
  induction s as [|c s [IHjoin IHlines]]; simpl.
  - split; [done|]. by repeat constructor.
  - pose proof (split_lines_not_nil s) as Hne.
    destruct (Ascii.eqb c "010") eqn:Hc.
    + apply Ascii.eqb_eq in Hc as ->. split.
      * destruct (split_lines s) as [|l ls] eqn:Hs; [done|].
        change (String.concat Teardown.newline (EmptyString :: l :: ls))
          with (String "010" (String.concat Teardown.newline (l :: ls))).
        by rewrite IHjoin.
      * constructor; [done|done].
    + destruct (split_lines s) as [|l ls] eqn:Hs; [done|]. split.
      * rewrite <- IHjoin. by destruct ls.
      * inversion IHlines as [|? ? Hl Hls]; subst. constructor; [|done].
        simpl. destruct c as [[] [] [] [] [] [] [] []]; try done;
          simpl in *; by rewrite ?Hl.
  Qed.

(** The loop over the container ids stops them one by one, in order, up
    to the first command that raises; an exit status plays no role. *)
Lemma stop_each_spec (ids : list string) (h : list command) :
  ∃ k : nat, (k ≤ length ids)%nat
       ∧ (stop_each rt ids h).2
         = h ++ ((λ id, DockerStop [id]) <$> take k ids)
       ∧ ((∀ h' id e, rt h' (DockerStop [id]) ≠ Raises e) →
          k = length ids ∧ (stop_each rt ids h).1 = inr tt).
Proof.
  revert h. induction ids as [|id ids IH]; intros h; simpl.
  - exists 0. split_and!; [done | by rewrite app_nil_r | done].
  - unfold bind, run.
    destruct (rt h (DockerStop [id])) as [rc out|e] eqn:Hans; simpl.
    + destruct (IH (h ++ [DockerStop [id]])) as (k & Hk & Hh & Hall).
      exists (S k). split_and!; [lia | |].
      * rewrite Hh. simpl. by rewrite <- app_assoc.
      * intros Hno. destruct (Hall Hno) as [-> ->]. done.
    + exists 1. split_and!; [lia | done |].
      intros Hno. by destruct (Hno h id e).
Qed.

End TeardownFacts.

(** [stop_container] never raises.  It asks for the running containers of
    the image and then issues one [docker stop] per line of the answer, in
    the order of the lines, until one of these commands raises; an exit
    status other than 0, of the listing or of a stop, changes nothing.  No
    stop is issued when the listing raises or prints nothing. *)
Theorem stop_container_best_effort
    (rt : Teardown.runtime) (h : list Teardown.command) :
  ∃ cmds,
    Teardown.stop_container rt h
    = (inr tt, h ++ Teardown.DockerPs (Some "flask:0.0.3") :: cmds)
    ∧ match rt h (Teardown.DockerPs (Some "flask:0.0.3")) with
      | Teardown.Raises _ => cmds = []
      | Teardown.Completed _ out =>
          let ids := if bool_decide (out ≠ EmptyString)
                     then Teardown.split_lines out else [] in
          cmds `prefix_of` ((λ id, Teardown.DockerStop [id]) <$> ids)
          ∧ ((∀ h' id e,
                rt h' (Teardown.DockerStop [id]) ≠ Teardown.Raises e) →
             cmds = (λ id, Teardown.DockerStop [id]) <$> ids)
          ∧ (out ≠ EmptyString → String.concat Teardown.newline ids = out)
      end.
Proof.
  unfold Teardown.stop_container, Teardown.stop_container_try, try_except,
    bind, Teardown.run.
  destruct (rt h _) as [rc out|e] eqn:Hps; simpl.
  - case_bool_decide as Hout.
    + destruct (stop_each_spec rt (Teardown.split_lines out)
                  (h ++ [Teardown.DockerPs (Some "flask:0.0.3")]))
        as (k & Hk & Hh & Hall).
      destruct (Teardown.stop_each rt _ _) as [r h'] eqn:Hrun. simpl in *.
      subst h'. eexists. split.
      * rewrite <- app_assoc. simpl. by destruct r as [e|[]].
      * split_and!.
        -- rewrite fmap_take. apply prefix_take.
        -- intros Hno. destruct (Hall Hno) as [-> _].
           by rewrite firstn_all.
        -- intros _. apply split_lines_join.
    + exists []. split; [done|]. split_and!; [done..|].
      intros Hne. by destruct Hout.
  - by exists [].
Qed.

(** [stop_all_containers] never ends with [CalledProcessError].  It lists
    the running containers, stops all of them in one command when the
    listing printed something, and removes the same containers only after
    the stop exited with 0.  An exception it lets through is one raised by
    one of these commands. *)
Theorem stop_all_containers_outcome
    (rt : Teardown.runtime) (h : list Teardown.command) :
  ∃ r cmds,
    Teardown.stop_all_containers rt h = (r, h ++ Teardown.DockerPs None :: cmds)
    ∧ r ≠ inl CalledProcessError
    ∧ cmds `prefix_of`
        match rt h (Teardown.DockerPs None) with
        | Teardown.Completed _ out =>
            [Teardown.DockerStop (Teardown.split_lines out);
             Teardown.DockerRm (Teardown.split_lines out)]
        | Teardown.Raises _ => []
        end
    ∧ (cmds ≠ [] ↔ ∃ rc out, rt h (Teardown.DockerPs None)
                              = Teardown.Completed rc out ∧ out ≠ EmptyString)
    ∧ (∀ ids, Teardown.DockerRm ids ∈ cmds →
         ∃ out, rt (h ++ [Teardown.DockerPs None]) (Teardown.DockerStop ids)
                = Teardown.Completed 0 out)
    ∧ (∀ e, r = inl e →
         ∃ h' cmd, rt h' cmd = Teardown.Raises e
                   ∧ cmd ∈ Teardown.DockerPs None :: cmds).
Proof.
  unfold Teardown.stop_all_containers, Teardown.stop_all_containers_try,
    try_except, bind, Teardown.run, ret, raise.
  destruct (rt h (Teardown.DockerPs None)) as [rc out|e] eqn:Hps; simpl.
  - case_bool_decide as Hout; simpl.
    + set (ids := Teardown.split_lines out).
      assert ([Teardown.DockerStop ids; Teardown.DockerRm ids]
              `prefix_of` [Teardown.DockerStop ids; Teardown.DockerRm ids])
        as Hrefl by done.
      assert (∀ cmds : list Teardown.command,
                (∃ c cs, cmds = c :: cs) →
                cmds ≠ [] ↔ ∃ rc0 out0,
                  Teardown.Completed rc out = Teardown.Completed rc0 out0
                  ∧ out0 ≠ EmptyString) as Hiff.
      { intros cmds (c & cs & ->). split; [intros _; eauto | done]. }
      destruct (rt (h ++ [Teardown.DockerPs None]) (Teardown.DockerStop ids))
        as [rc1 out1|e1] eqn:Hstop; simpl.
      * case_bool_decide as Hrc1; simpl.
        -- exists (inr tt), [Teardown.DockerStop ids]. rewrite <- app_assoc.
           split_and!.
           ++ done.
           ++ done.
           ++ by exists [Teardown.DockerRm ids].
           ++ apply Hiff. eauto.
           ++ intros ids' [=]%list_elem_of_singleton.
           ++ done.
        -- subst rc1.
           destruct (rt ((h ++ [Teardown.DockerPs None])
                         ++ [Teardown.DockerStop ids]) (Teardown.DockerRm ids))
             as [rc2 out2|e2] eqn:Hrm; simpl.
           ++ exists (inr tt), [Teardown.DockerStop ids; Teardown.DockerRm ids].
              rewrite <- !app_assoc. split_and!.
              ** by case_bool_decide.
              ** done.
              ** exact Hrefl.
              ** apply Hiff. eauto.
              ** intros ids'. rewrite !elem_of_cons, elem_of_nil.
                 intros [[=]|[[= <-]|[]]]. eauto.
              ** done.
           ++ exists (match e2 with
                      | CalledProcessError => inr tt
                      | _ => inl e2
                      end),
                     [Teardown.DockerStop ids; Teardown.DockerRm ids].
              rewrite <- !app_assoc. split_and!.
              ** by destruct e2.
              ** by destruct e2.
              ** exact Hrefl.
              ** apply Hiff. eauto.
              ** intros ids'. rewrite !elem_of_cons, elem_of_nil.
                 intros [[=]|[[= <-]|[]]]. eauto.
              ** intros e He.
                 assert (e = e2) as -> by (by destruct e2; simplify_eq).
                 eexists _, _. split; [exact Hrm|]. by do 2 right; left.
      * exists (match e1 with
                | CalledProcessError => inr tt
                | _ => inl e1
                end), [Teardown.DockerStop ids].
        rewrite <- !app_assoc. split_and!.
        -- by destruct e1.
        -- by destruct e1.
        -- by exists [Teardown.DockerRm ids].
        -- apply Hiff. eauto.
        -- intros ids' [=]%list_elem_of_singleton.
        -- intros e He.
           assert (e = e1) as -> by (by destruct e1; simplify_eq).
           eexists _, _. split; [exact Hstop|]. by right; left.
    + exists (inr tt), []. split_and!.
      * done.
      * done.
      * apply prefix_nil.
      * split; [done|]. intros (rc' & out' & [= <- <-] & Hne). by destruct Hout.
      * intros ids' []%elem_of_nil.
      * done.
  - exists (match e with
            | CalledProcessError => inr tt
            | _ => inl e
            end), [].
    split_and!.
    + by destruct e.
    + by destruct e.
    + done.
    + split; [done|]. by intros (? & ? & [=] & _).
    + intros ids' []%elem_of_nil.
    + intros e' He. assert (e' = e) as -> by (by destruct e; simplify_eq).
      eexists _, _. split; [exact Hps|]. by left.
Qed.

(** * Further properties of the loop: files and teardown *)

Section IterationFiles.

Variable E : env.
Variables (all_syscalls : list string) (i : nat) (syscall : string).
Variable st : state.

(** An iteration touches no file but the ones that its trial policy path
    and seccomp.json stand for. *)
Lemma trial_iteration_files r st' path :
  trial_iteration E all_syscalls i syscall st = (r, st') →
  ¬ same_file (the_world st) (test_profile_path syscall) path →
  ¬ same_file (the_world st) working_profile_path path →
  files (the_world st') !! path = files (the_world st) !! path.
Proof.
  unfold same_file. intros Hrun Htest Hwork. revert Hrun.
  run_iteration; intros [<- <-]%pair_eq_inv; reduce_state; files_by_path.
Qed.

(** When no write of seccomp.json fails and the trial policy path stands
    for another file, seccomp.json follows the working policy in memory. *)
Lemma trial_iteration_working_file r st' :
  trial_iteration E all_syscalls i syscall st = (r, st') →
  save_working (trial E syscall
                  (remove_syscall_from_profile (working_profile st) syscall))
  = Saved →
  ¬ same_file (the_world st) (test_profile_path syscall) working_profile_path →
  working_file st = Some (working_profile st) →
  working_file st' = Some (working_profile st').
Proof.
  unfold working_file, same_file.
  intros Hrun Hsaved Hpath Hsync. revert Hrun.
  run_iteration; try congruence; intros [<- <-]%pair_eq_inv; reduce_state;
    files_by_path.
Qed.

(** A path under which there is no document, and which does not stand for
    seccomp.json, has none after an iteration whose trial policy file could
    be deleted. *)
Lemma trial_iteration_keeps_absent r st' path :
  trial_iteration E all_syscalls i syscall st = (r, st') →
  remove_test (trial E syscall
                 (remove_syscall_from_profile (working_profile st) syscall))
  = true →
  ¬ same_file (the_world st) working_profile_path path →
  files (the_world st) !! path = None →
  files (the_world st') !! path = None.
Proof.
  unfold same_file. intros Hrun Hrm Hwork Hnone. revert Hrun.
  run_iteration; try congruence; intros [<- <-]%pair_eq_inv; reduce_state;
    files_by_path.
Qed.

Lemma launch_trace_head (tr : trial_env) profile_path :
  ∃ rest, launch_trace tr profile_path = DockerRun profile_path :: rest.
Proof.
  unfold launch_trace. unfold_prog.
  destruct tr as [? dr di ir dl ? ? ? ? ?]; simpl.
  destruct dr as [[| |]|[]]; simpl; try (by eexists);
  destruct di as [[| |]|[]]; simpl; try (by eexists);
  destruct ir as [[]|[]]; simpl; try (by eexists);
  destruct dl as [?|[]]; simpl; by eexists.
Qed.

(** The actions of a trial whose policy file could be written. *)
Lemma trial_iteration_actions r st' :
  let test_profile := remove_syscall_from_profile (working_profile st) syscall in
  let tr := trial E syscall test_profile in
  let path := test_profile_path syscall in
  trial_iteration E all_syscalls i syscall st = (r, st') →
  save_test tr = Saved →
  r = inr tt
  ∧ ∃ mid,
      trace (the_world st')
      = trace (the_world st)
        ++ [LogTesting (i + 1) (length all_syscalls) syscall;
            Save path test_profile; StopContainer; DockerRun path]
        ++ mid ++ [StopContainer; OsRemove path].
Proof.
  intros test_profile tr path Hrun Hsaved. subst test_profile path.
  destruct (launch_trace_head tr (test_profile_path syscall)) as [rest Hhead].
  subst tr. revert Hrun.
  run_iteration; try congruence; intros [<- <-]%pair_eq_inv; reduce_state;
    rewrite Hhead;
    (split; [done|]);
    first
      [ (exists rest; by rewrite <- ?app_assoc)
      | match goal with
        | |- context [verify_trace ?t] =>
            first
              [ (exists (rest ++ verify_trace t); by rewrite <- ?app_assoc)
              | match goal with
                | |- context [Save working_profile_path ?p] =>
                    exists (rest ++ verify_trace t
                            ++ [Save working_profile_path p]);
                    by rewrite <- ?app_assoc
                end ]
        end ].
Qed.

(** What a trial whose policy file could be written leaves under the
    trial policy path. *)
Lemma trial_iteration_leaves r st' :
  let test_profile := remove_syscall_from_profile (working_profile st) syscall in
  let tr := trial E syscall test_profile in
  let path := test_profile_path syscall in
  trial_iteration E all_syscalls i syscall st = (r, st') →
  save_test tr = Saved →
  files (the_world st') !! path
  = (if remove_test tr || commit_destroys (the_world st) tr path
     then None else Some test_profile).
Proof.
  intros test_profile tr path Hrun Hsaved. subst test_profile path tr.
  unfold commit_destroys, same_file. revert Hrun.
  run_iteration; try congruence; intros [<- <-]%pair_eq_inv; reduce_state;
    cbn [andb orb]; files_by_path;
    repeat case_bool_decide; repeat case_decide; congruence.
Qed.

End IterationFiles.

Section LoopFiles.

Variable E : env.
Variable all_syscalls : list string.

(** The loop does not change which file a path stands for. *)
Lemma for_each_denotes rest i st :
  denotes (files (the_world (for_each E all_syscalls i rest st).2))
  = denotes (files (the_world st)).
Proof.
  apply (for_each_preserves E all_syscalls
           (λ st st', denotes (files (the_world st'))
                      = denotes (files (the_world st)))).
  - done.
  - intros st1 st2 st3 H12 H23. by rewrite H23.
  - clear i st. intros i c st.
    destruct (trial_iteration E all_syscalls i c st) as [r st'] eqn:Hit.
    simpl. by eapply trial_iteration_denotes.
Qed.

Lemma trial_files_apart_denotes w w' cands path :
  denotes (files w') = denotes (files w) →
  trial_files_apart w cands path → trial_files_apart w' cands path.
Proof. unfold trial_files_apart, same_file. by intros ->. Qed.

(** The loop touches no file but seccomp.json and the files that the
    trial policy paths of the candidates it visits stand for. *)
Lemma for_each_files rest path :
  ∀ i st,
    ¬ same_file (the_world st) working_profile_path path →
    trial_files_apart (the_world st) rest path →
    files (the_world (for_each E all_syscalls i rest st).2) !! path
    = files (the_world st) !! path.
Proof.
  induction rest as [|c rest IH]; intros i st Hwork Htest; simpl; [done|].
  unfold trial_files_apart in Htest. apply Forall_cons in Htest as [Hc Hrest].
  unfold bind.
  destruct (trial_iteration E all_syscalls i c st) as [[e|[]] st1] eqn:Hit;
    simpl.
  - by eapply trial_iteration_files.
  - pose proof (trial_iteration_denotes _ _ _ _ _ _ _ Hit) as Hden.
    rewrite IH.
    + by eapply trial_iteration_files.
    + unfold same_file. by rewrite Hden.
    + by eapply trial_files_apart_denotes.
Qed.

(** When every trial policy file can be deleted, the loop leaves no
    document under a path that had none and does not stand for
    seccomp.json. *)
Lemma for_each_keeps_absent rest path :
  (∀ c tp, remove_test (trial E c tp) = true) →
  ∀ i st,
    ¬ same_file (the_world st) working_profile_path path →
    files (the_world st) !! path = None →
    files (the_world (for_each E all_syscalls i rest st).2) !! path = None.
Proof.
  intros Hrm. induction rest as [|c rest IH]; intros i st Hwork Hnone; simpl;
    [done|].
  unfold bind.
  destruct (trial_iteration E all_syscalls i c st) as [[e|[]] st1] eqn:Hit;
    simpl.
  - by eapply trial_iteration_keeps_absent.
  - apply IH.
    + unfold same_file. by rewrite (trial_iteration_denotes _ _ _ _ _ _ _ Hit).
    + by eapply trial_iteration_keeps_absent.
Qed.

(** When every trial policy file can be deleted and none of the trial
    policy paths stands for seccomp.json, a completed loop leaves no
    document under any of them. *)
Lemma for_each_cleans rest :
  (∀ c tp, remove_test (trial E c tp) = true) →
  ∀ i st st',
    trial_files_apart (the_world st) rest working_profile_path →
    for_each E all_syscalls i rest st = (inr tt, st') →
    ∀ c, c ∈ rest → files (the_world st') !! test_profile_path c = None.
Proof.
  intros Hrm. induction rest as [|c0 rest IH]; intros i st st' Hapart; simpl.
  - intros _ c []%elem_of_nil.
  - unfold trial_files_apart in Hapart.
    apply Forall_cons in Hapart as [Hc0 Hrest]. unfold bind.
    destruct (trial_iteration E all_syscalls i c0 st) as [[e|[]] st1] eqn:Hit;
      [done|].
    pose proof (trial_iteration_denotes _ _ _ _ _ _ _ Hit) as Hden.
    intros Hloop c Hc. apply elem_of_cons in Hc as [->|Hc].
    + pose proof (for_each_keeps_absent rest (test_profile_path c0) Hrm
                    (S i) st1) as Hkeep.
      rewrite Hloop in Hkeep. apply Hkeep.
      * unfold same_file in *. rewrite Hden. congruence.
      * destruct (save_test (trial E c0
                    (remove_syscall_from_profile (working_profile st) c0)))
          as [|e cl] eqn:Hsave.
        -- rewrite (trial_iteration_leaves E all_syscalls i c0 st _ _ Hit Hsave).
           by rewrite Hrm.
        -- apply trial_iteration_verdict in Hit. revert Hit. cbv zeta.
           unfold trial_verdict. rewrite Hsave. by intros [? _].
    + eapply IH; [|exact Hloop|exact Hc]. by eapply trial_files_apart_denotes.
Qed.

(** When no write of seccomp.json fails and none of the trial policy
    paths stands for seccomp.json, the file follows the working policy
    through the loop, however the loop ends. *)
Lemma for_each_working_file rest :
  (∀ c tp, save_working (trial E c tp) = Saved) →
  ∀ i st,
    trial_files_apart (the_world st) rest working_profile_path →
    working_file st = Some (working_profile st) →
    working_file (for_each E all_syscalls i rest st).2
    = Some (working_profile (for_each E all_syscalls i rest st).2).
Proof.
  intros Hsaved. induction rest as [|c rest IH]; intros i st Hapart Hsync;
    simpl; [done|].
  unfold trial_files_apart in Hapart. apply Forall_cons in Hapart as [Hc Hrest].
  unfold bind.
  destruct (trial_iteration E all_syscalls i c st) as [[e|[]] st1] eqn:Hit;
    simpl.
  - by eapply trial_iteration_working_file.
  - apply IH.
    + eapply trial_files_apart_denotes; [|exact Hrest].
      by eapply trial_iteration_denotes.
    + by eapply trial_iteration_working_file.
Qed.

(** The working policy is the one the loop started from, or the trial
    policy of a candidate whose launch and verification succeeded. *)
Lemma for_each_verified rest i st :
  let st' := (for_each E all_syscalls i rest st).2 in
  working_profile st' = working_profile st
  ∨ ∃ c previous,
      working_profile st' = remove_syscall_from_profile previous c
      ∧ launch_reaches_running (trial E c (working_profile st')) = true
      ∧ verification_passes (trial E c (working_profile st')) = true.
Proof.
  cbv zeta.
  apply (for_each_preserves E all_syscalls
           (λ st st',
              working_profile st' = working_profile st
              ∨ ∃ c previous,
                  working_profile st' = remove_syscall_from_profile previous c
                  ∧ launch_reaches_running (trial E c (working_profile st'))
                    = true
                  ∧ verification_passes (trial E c (working_profile st'))
                    = true)).
  - by left.
  - intros st1 st2 st3 H12 [H23|H23]; [|by right].
    rewrite H23. destruct H12 as [->|H12]; [by left|by right].
  - clear i st. intros i c st.
    destruct (trial_iteration E all_syscalls i c st) as [r st'] eqn:Hit.
    simpl. apply trial_iteration_verdict in Hit. revert Hit. cbv zeta.
    unfold trial_verdict. destruct (save_test _); [|by intros (_ & ? & _); left].
    destruct (launch_reaches_running _) eqn:Hl; simpl;
      [|by intros (_ & ? & _); left].
    destruct (verification_passes _) eqn:Hv; simpl;
      [|by intros (_ & ? & _); left].
    destruct (save_working _); intros (_ & Hw & _); right;
      exists c, (working_profile st); by rewrite Hw.
Qed.

End LoopFiles.

Section RunShape.

Variable E : env.

(** Either a run ends with an exception before its loop, having touched
    at most seccomp.json, or it enters the loop and ends as the loop and
    the last write allow. *)
Lemma minimize_shape w :
  (∃ e w',
     minimize_seccomp_profile E w = (inl e, w')
     ∧ (∀ path, ¬ same_file w working_profile_path path →
                files w' !! path = files w !! path)
     ∧ (load_default E = inl e
        ∨ (stop_all E = Some e ∧ e ≠ CalledProcessError)
        ∨ ∃ cl, save_initial E = SaveRaises e cl))
  ∨ (∃ baseline r st,
       load_default E = inr baseline
       ∧ save_initial E = Saved
       ∧ (stop_all E = None ∨ stop_all E = Some CalledProcessError)
       ∧ for_each E (get_all_syscalls baseline) 0 (get_all_syscalls baseline)
           (loop_entry baseline w) = (r, st)
       ∧ minimize_seccomp_profile E w
         = match r with
           | inl e => (inl e, the_world st)
           | inr _ =>
               match save_final E with
               | Saved =>
                   (inr {| final_profile := working_profile st;
                           necessary := necessary_syscalls st |},
                    {| files := <[minimized_profile_path := working_profile st]>
                                  (files (the_world st));
                       trace := trace (the_world st)
                                ++ [StopContainer;
                                    Save minimized_profile_path
                                      (working_profile st)] |})
               | SaveRaises e clobbered =>
                   (inl e,
                    {| files := if clobbered
                                then delete minimized_profile_path
                                       (files (the_world st))
                                else files (the_world st);
                       trace := trace (the_world st)
                                ++ [StopContainer;
                                    Save minimized_profile_path
                                      (working_profile st)] |})
               end
           end).
Proof.
  unfold minimize_seccomp_profile, stop_all_containers, load_seccomp_profile.
  unfold_prog.
  destruct (stop_all E) as [[]|] eqn:Hstop; simpl;
    try (left; eexists _, _; split; [reflexivity|]; split; [done|];
         by right; left);
    (destruct (load_default E) as [e0|baseline]; simpl;
     [left; eexists _, _; split; [reflexivity|]; split; [done|]; by left|]);
    (destruct (save_initial E) as [|e0 cl]; simpl;
     [| left; eexists _, _; split; [reflexivity|]; split;
        [ unfold same_file; intros path Hpath; cbn [files];
          destruct cl; files_by_path
        | right; right; eauto ] ]);
    right; rewrite <- !app_assoc; simpl; fold (loop_entry baseline w);
    (destruct (for_each _ _ _ _ _) as [[e0|[]] st] eqn:Hloop);
    exists baseline; eexists _, st; (split_and!; [done | done | by auto | done |]);
    simpl; [done | | done | ];
    destruct (save_final E); simpl; by rewrite <- ?app_assoc.
Qed.

(** Entering the loop and going through it does not change which file a
    path stands for; on entry seccomp.json holds the baseline, and no
    other file has changed. *)
Lemma loop_from_entry baseline w r st :
  for_each E (get_all_syscalls baseline) 0 (get_all_syscalls baseline)
    (loop_entry baseline w) = (r, st) →
  denotes (files (the_world st)) = denotes (files w).
Proof.
  intros Hloop.
  pose proof (for_each_denotes E (get_all_syscalls baseline)
                (get_all_syscalls baseline) 0 (loop_entry baseline w)) as Hden.
  by rewrite Hloop in Hden.
Qed.

Lemma loop_entry_files baseline w path :
  files (the_world (loop_entry baseline w)) !! path
  = if decide (same_file w working_profile_path path) then Some baseline
    else files w !! path.
Proof.
  unfold loop_entry, same_file. cbn [the_world files].
  rewrite fs_lookup_insert. by repeat case_decide.
Qed.

End RunShape.

(** A run, completed or not, changes no file other than the ones that
    seccomp.json, seccomp-minimized.json and the trial policy paths of the
    baseline's names stand for. *)
Theorem run_touches_only_its_files (E : env) (w : world) (path : string) :
  ¬ same_file w working_profile_path path →
  ¬ same_file w minimized_profile_path path →
  (∀ baseline, load_default E = inr baseline →
               trial_files_apart w (get_all_syscalls baseline) path) →
  files (minimize_seccomp_profile E w).2 !! path = files w !! path.
Proof.
  intros Hwork Hmin Htest.
  destruct (minimize_shape E w)
    as [(e & w' & -> & Hframe & _)
       |(baseline & r & st & Hload & _ & _ & Hloop & ->)].
  - by apply Hframe.
  - pose proof (loop_from_entry E baseline w r st Hloop) as Hden.
    pose proof (for_each_files E (get_all_syscalls baseline)
                  (get_all_syscalls baseline) path 0 (loop_entry baseline w)
                  Hwork (Htest baseline Hload)) as Hf.
    rewrite Hloop, loop_entry_files in Hf. cbn [snd] in Hf.
    rewrite decide_False in Hf by done.
    unfold same_file in *.
    destruct r as [e|[]]; cbn [snd]; [done|].
    destruct (save_final E) as [|e []]; cbn [snd files]; files_by_path.
Qed.

Lemma run_touches_only_its_files_witness :
  files (minimize_seccomp_profile (steady_env scenario_profile futex_needed)
           {| files := <[default_profile_path := scenario_profile]>
                         nested_directory;
              trace := [] |}).2 !! default_profile_path
  = files {| files := <[default_profile_path := scenario_profile]>
                        nested_directory;
             trace := [] |} !! default_profile_path.
Proof.
  apply run_touches_only_its_files.
  - vm_compute. discriminate.
  - vm_compute. discriminate.
  - intros baseline [= <-]. decide_by_evaluation.
Defined.

(** The hypothesis on the trial policy paths is needed: for the name
    x/../seccomp-default the trial policy path stands for the baseline
    file, which the trial overwrites and deletes. *)
Example escaping_name_deletes_baseline :
  let baseline := one_group ["x/../seccomp-default"] in
  let w := {| files := <[default_profile_path := baseline]> nested_directory;
              trace := [] |} in
  files w !! default_profile_path = Some baseline
  ∧ (minimize_seccomp_profile (launch_timeout_env baseline) w).1
    = inr {| final_profile := baseline;
             necessary := {["x/../seccomp-default"]} |}
  ∧ files (minimize_seccomp_profile (launch_timeout_env baseline) w).2
    !! default_profile_path = None.
Proof. cbv zeta. split_and!; vm_compute; reflexivity. Qed.

(** Every trial whose policy file could be written runs to its end: the
    leftovers are stopped before the launch, the launch uses the path just
    written, and whatever the outcome the instance is stopped and the trial
    policy path deleted last.  Afterwards there is no document under the
    path when the deletion succeeded; when it failed the trial policy is
    there, unless the path stands for seccomp.json and a failed commit
    write destroyed it. *)
Theorem trial_always_torn_down
    (E : env) (all_syscalls : list string) (i : nat) (syscall : string)
    (st : state) :
  let test_profile := remove_syscall_from_profile (working_profile st) syscall in
  let tr := trial E syscall test_profile in
  let path := test_profile_path syscall in
  let out := trial_iteration E all_syscalls i syscall st in
  save_test tr = Saved →
  out.1 = inr tt
  ∧ (∃ mid,
       trace (the_world out.2)
       = trace (the_world st)
         ++ [LogTesting (i + 1) (length all_syscalls) syscall;
             Save path test_profile; StopContainer; DockerRun path]
         ++ mid ++ [StopContainer; OsRemove path])
  ∧ files (the_world out.2) !! path
    = (if remove_test tr || commit_destroys (the_world st) tr path
       then None else Some test_profile).
Proof.
  intros test_profile tr path out Hsaved. subst out.
  destruct (trial_iteration E all_syscalls i syscall st) as [r st'] eqn:Hrun.
  destruct (trial_iteration_actions E all_syscalls i syscall st r st'
              Hrun Hsaved) as [Hr Htrace].
  split_and!; [done..|].
  by apply (trial_iteration_leaves E all_syscalls i syscall st r st').
Qed.

Lemma trial_always_torn_down_witness :
  let st := loop_entry scenario_profile empty_world in
  let test_profile := remove_syscall_from_profile (working_profile st) "futex" in
  let out := trial_iteration (launch_timeout_env scenario_profile)
               (get_all_syscalls scenario_profile) 0 "futex" st in
  out.1 = inr tt
  ∧ (∃ mid,
       trace (the_world out.2)
       = trace (the_world st)
         ++ [LogTesting (0 + 1) (length (get_all_syscalls scenario_profile))
               "futex";
             Save (test_profile_path "futex") test_profile; StopContainer;
             DockerRun (test_profile_path "futex")]
         ++ mid ++ [StopContainer; OsRemove (test_profile_path "futex")])
  ∧ files (the_world out.2) !! test_profile_path "futex"
    = (if remove_test
            (trial (launch_timeout_env scenario_profile) "futex" test_profile)
          || commit_destroys (the_world st)
               (trial (launch_timeout_env scenario_profile) "futex"
                  test_profile)
               (test_profile_path "futex")
       then None else Some test_profile).
Proof.
  apply (trial_always_torn_down (launch_timeout_env scenario_profile)
           (get_all_syscalls scenario_profile) 0 "futex"
           (loop_entry scenario_profile empty_world)).
  reflexivity.
Defined.

(** The last part depends on the commit where the trial policy path
    stands for seccomp.json: the trial of the name x/../seccomp launches and
    is verified, the write of seccomp.json on the commit raises after
    truncating the file, and the deletion fails; the trial policy is not
    under the trial policy path although the deletion failed. *)
Example failed_commit_destroys_trial_file :
  let tr := {| save_test := Saved;
               docker_run := Exited 0;
               docker_inspect := Exited 0;
               inspect_running := inr true;
               docker_logs := Exited 0;
               http_get := inr 200%Z;
               http_post_form := inr 200%Z;
               http_post_api := inr 200%Z;
               save_working := SaveRaises OtherException true;
               remove_test := false |} in
  let E := {| stop_all := None;
              load_default := inr escaping_profile;
              save_initial := Saved;
              trial := λ _ _, tr;
              save_final := Saved |} in
  let st := loop_entry escaping_profile nested_world in
  let out := trial_iteration E (get_all_syscalls escaping_profile) 1
               escaping_name st in
  commit_destroys (the_world st) tr (test_profile_path escaping_name) = true
  ∧ out.1 = inr tt
  ∧ files (the_world out.2) !! test_profile_path escaping_name = None
  ∧ working_file out.2 = None
  ∧ working_profile out.2 = one_group ["read"]
  ∧ escaping_name ∈ necessary_syscalls out.2.
Proof.
  cbv zeta. split_and!; try (vm_compute; reflexivity);
    decide_by_evaluation.
Qed.

(** When every trial policy file can be deleted and no trial policy path
    of a candidate stands for seccomp.json or seccomp-minimized.json, a
    completed run leaves no document under the trial policy path of any
    candidate, even where one existed before the run. *)
Theorem trial_files_removed
    (E : env) (w : world) (baseline : profile) (rep : report) (w' : world) :
  load_default E = inr baseline →
  (∀ c tp, remove_test (trial E c tp) = true) →
  trial_files_apart w (get_all_syscalls baseline) working_profile_path →
  trial_files_apart w (get_all_syscalls baseline) minimized_profile_path →
  minimize_seccomp_profile E w = (inr rep, w') →
  ∀ c, c ∈ get_all_syscalls baseline →
       files w' !! test_profile_path c = None.
Proof.
  intros Hload Hrm Hwork Hmin Hrun c Hc.
  destruct (minimize_shape E w)
    as [(e & w0 & Hrun' & _)
       |(baseline' & r & st & Hload' & _ & _ & Hloop & Hrun')];
    rewrite Hrun in Hrun'; [done|].
  rewrite Hload in Hload'. injection Hload' as <-.
  destruct r as [e|[]]; [done|].
  destruct (save_final E); [|done].
  apply pair_eq_inv in Hrun' as [_ ->]. cbn [files].
  pose proof (loop_from_entry E baseline w _ st Hloop) as Hden.
  unfold trial_files_apart in Hmin. rewrite Forall_forall in Hmin.
  specialize (Hmin c Hc). unfold same_file in Hmin.
  rewrite fs_lookup_insert, decide_False by (rewrite Hden; congruence).
  by eapply (for_each_cleans E (get_all_syscalls baseline)
               (get_all_syscalls baseline) Hrm 0 (loop_entry baseline w)).
Qed.

Lemma trial_files_removed_witness :
  files (minimize_seccomp_profile
           (steady_env scenario_profile futex_needed)
           {| files := <[test_profile_path "openat" := scenario_profile]>
                         nested_directory;
              trace := [] |}).2
  !! test_profile_path "openat" = None.
Proof.
  apply (trial_files_removed (steady_env scenario_profile futex_needed)
           {| files := <[test_profile_path "openat" := scenario_profile]>
                         nested_directory;
              trace := [] |}
           scenario_profile
           {| final_profile := one_group ["futex"]; necessary := {["futex"]} |}).
  - reflexivity.
  - intros c tp. reflexivity.
  - decide_by_evaluation.
  - decide_by_evaluation.
  - vm_compute. reflexivity.
  - vm_compute get_all_syscalls. rewrite !elem_of_cons. auto.
Defined.

(** The hypothesis on seccomp-minimized.json is needed: the trial policy
    path of the name x/../seccomp-minimized stands for that file, which the
    last write of the run creates. *)
Example escaping_name_trial_path_remains :
  let baseline := one_group ["x/../seccomp-minimized"] in
  let E := launch_timeout_env baseline in
  (∀ c tp, remove_test (trial E c tp) = true)
  ∧ (minimize_seccomp_profile E nested_world).1
    = inr {| final_profile := baseline;
             necessary := {["x/../seccomp-minimized"]} |}
  ∧ files (minimize_seccomp_profile E nested_world).2
    !! test_profile_path "x/../seccomp-minimized" = Some baseline.
Proof. cbv zeta. split_and!; [done|vm_compute; reflexivity..]. Qed.


(** * Further properties of whole runs *)

(** When no write of seccomp.json fails and no trial policy path of a
    candidate stands for seccomp.json, a completed run leaves the same
    policy in seccomp.json and in seccomp-minimized.json: the final working
    policy. *)
Theorem output_files_agree
    (E : env) (w : world) (baseline : profile) (rep : report) (w' : world) :
  (∀ c tp, save_working (trial E c tp) = Saved) →
  load_default E = inr baseline →
  trial_files_apart w (get_all_syscalls baseline) working_profile_path →
  minimize_seccomp_profile E w = (inr rep, w') →
  files w' !! working_profile_path = Some (final_profile rep)
  ∧ files w' !! minimized_profile_path = Some (final_profile rep).
Proof.
  intros Hsaved Hload Hapart Hrun.
  destruct (minimize_shape E w)
    as [(e & w0 & Hrun' & _)
       |(baseline' & r & st & Hload' & _ & _ & Hloop & Hrun')];
    rewrite Hrun in Hrun'; [done|].
  rewrite Hload in Hload'. injection Hload' as <-.
  destruct r as [e|[]]; [done|].
  destruct (save_final E); [|done].
  apply pair_eq_inv in Hrun' as [[= ->] ->]. cbn [files final_profile].
  pose proof (for_each_working_file E (get_all_syscalls baseline)
                (get_all_syscalls baseline) Hsaved 0 (loop_entry baseline w)
                Hapart) as Hsync.
  rewrite Hloop in Hsync. cbn [snd] in Hsync. unfold working_file in Hsync.
  rewrite loop_entry_files, decide_True in Hsync by done.
  specialize (Hsync eq_refl). split; files_by_path.
Qed.

Lemma output_files_agree_witness :
  files (minimize_seccomp_profile
           (steady_env scenario_profile futex_needed) nested_world).2
  !! working_profile_path
  = Some (final_profile {| final_profile := one_group ["futex"];
                           necessary := {["futex"]} |})
  ∧ files (minimize_seccomp_profile
             (steady_env scenario_profile futex_needed) nested_world).2
    !! minimized_profile_path
    = Some (final_profile {| final_profile := one_group ["futex"];
                             necessary := {["futex"]} |}).
Proof.
  apply (output_files_agree (steady_env scenario_profile futex_needed)
           nested_world scenario_profile
           {| final_profile := one_group ["futex"]; necessary := {["futex"]} |}).
  - intros c tp. reflexivity.
  - reflexivity.
  - decide_by_evaluation.
  - vm_compute. reflexivity.
Defined.

(** The hypothesis on the trial policy paths is needed: with the name
    x/../seccomp in the baseline a run in which nothing fails completes and
    leaves no seccomp.json at all. *)
Example escaping_name_deletes_working_file :
  let E := steady_env escaping_profile (λ _, false) in
  (∀ c tp, save_working (trial E c tp) = Saved)
  ∧ (minimize_seccomp_profile E nested_world).1
    = inr {| final_profile := escaping_profile;
             necessary := {["read"; escaping_name]} |}
  ∧ files (minimize_seccomp_profile E nested_world).2 !! working_profile_path
    = None
  ∧ files (minimize_seccomp_profile E nested_world).2 !! minimized_profile_path
    = Some escaping_profile.
Proof. cbv zeta. split_and!; [done|vm_compute; reflexivity..]. Qed.

(** A run that is aborted after the baseline was read and written leaves
    in seccomp.json, when no write of that file failed and neither a trial
    policy path of a candidate nor seccomp-minimized.json stands for it, the
    baseline or a policy whose trial launched and passed the verification,
    with no name the baseline does not list. *)
Theorem aborted_run_leaves_verified_policy
    (E : env) (w : world) (baseline : profile) (e : exn) (w' : world) :
  (∀ c tp, save_working (trial E c tp) = Saved) →
  load_default E = inr baseline →
  save_initial E = Saved →
  stop_all E = None ∨ stop_all E = Some CalledProcessError →
  trial_files_apart w (get_all_syscalls baseline) working_profile_path →
  ¬ same_file w minimized_profile_path working_profile_path →
  minimize_seccomp_profile E w = (inl e, w') →
  ∃ p,
    files w' !! working_profile_path = Some p
    ∧ (p = baseline
       ∨ ∃ c previous,
           p = remove_syscall_from_profile previous c
           ∧ launch_reaches_running (trial E c p) = true
           ∧ verification_passes (trial E c p) = true)
    ∧ ∀ x, x ∈ get_all_syscalls p → x ∈ get_all_syscalls baseline.
Proof.
  intros Hsaved Hload Hinit Hstop Hapart Hmin Hrun.
  destruct (minimize_shape E w)
    as [(e0 & w0 & Hrun' & _ & [Hl|[[Hs Hne]|[cl Hi]]])
       |(baseline' & r & st & Hload' & _ & _ & Hloop & Hrun')];
    [congruence | destruct Hstop; congruence | congruence |].
  rewrite Hload in Hload'. injection Hload' as <-.
  exists (working_profile st).
  pose proof (loop_from_entry E baseline w r st Hloop) as Hden.
  pose proof (for_each_working_file E (get_all_syscalls baseline)
                (get_all_syscalls baseline) Hsaved 0 (loop_entry baseline w)
                Hapart) as Hsync.
  pose proof (for_each_verified E (get_all_syscalls baseline)
                (get_all_syscalls baseline) 0 (loop_entry baseline w)) as Hver.
  pose proof (for_each_narrows E (get_all_syscalls baseline)
                (get_all_syscalls baseline) 0 (loop_entry baseline w)) as Hnar.
  rewrite Hloop in Hsync, Hver, Hnar. cbv zeta in Hver.
  cbn [snd] in Hsync, Hver, Hnar. unfold working_file in Hsync.
  rewrite loop_entry_files, decide_True in Hsync by done.
  specialize (Hsync eq_refl). unfold same_file in Hmin.
  rewrite Hrun in Hrun'. split_and!.
  - destruct r as [e1|[]].
    + by apply pair_eq_inv in Hrun' as [_ ->].
    + destruct (save_final E) as [|e1 []]; [done| |];
        apply pair_eq_inv in Hrun' as [_ ->]; cbn [files]; files_by_path.
  - exact Hver.
  - apply Hnar.
Qed.

Lemma aborted_run_leaves_verified_policy_witness :
  ∃ p,
    files (minimize_seccomp_profile
             (socket_file_unwritable scenario_profile) nested_world).2
    !! working_profile_path = Some p
    ∧ (p = scenario_profile
       ∨ ∃ c previous,
           p = remove_syscall_from_profile previous c
           ∧ launch_reaches_running
               (trial (socket_file_unwritable scenario_profile) c p) = true
           ∧ verification_passes
               (trial (socket_file_unwritable scenario_profile) c p) = true)
    ∧ ∀ x, x ∈ get_all_syscalls p → x ∈ get_all_syscalls scenario_profile.
Proof.
  apply (aborted_run_leaves_verified_policy
           (socket_file_unwritable scenario_profile) nested_world
           scenario_profile OtherException).
  - intros c tp. simpl. by case_bool_decide.
  - reflexivity.
  - reflexivity.
  - by left.
  - decide_by_evaluation.
  - vm_compute. discriminate.
  - vm_compute. reflexivity.
Defined.

(** The policy a completed run ends with is the baseline, untested, or
    the trial policy of one of its candidates, whose launch reached
    [Running] and whose verification passed. *)
Theorem final_policy_was_verified
    (E : env) (w : world) (baseline : profile) (rep : report) (w' : world) :
  load_default E = inr baseline →
  minimize_seccomp_profile E w = (inr rep, w') →
  final_profile rep = baseline
  ∨ ∃ c previous,
      final_profile rep = remove_syscall_from_profile previous c
      ∧ launch_reaches_running (trial E c (final_profile rep)) = true
      ∧ verification_passes (trial E c (final_profile rep)) = true.
Proof.
  intros Hload Hrun.
  apply minimize_completed in Hrun
    as (baseline' & st & Hload' & Hloop & -> & _).
  rewrite Hload in Hload'. injection Hload' as <-.
  pose proof (for_each_verified E (get_all_syscalls baseline)
                (get_all_syscalls baseline) 0 (loop_entry baseline w)) as Hver.
  rewrite Hloop in Hver. exact Hver.
Qed.

Lemma final_policy_was_verified_witness :
  one_group ["futex"] = scenario_profile
  ∨ ∃ c previous,
      one_group ["futex"] = remove_syscall_from_profile previous c
      ∧ launch_reaches_running
          (trial (steady_env scenario_profile futex_needed) c
             (one_group ["futex"])) = true
      ∧ verification_passes
          (trial (steady_env scenario_profile futex_needed) c
             (one_group ["futex"])) = true.
Proof.
  apply (final_policy_was_verified (steady_env scenario_profile futex_needed)
           empty_world scenario_profile
           {| final_profile := one_group ["futex"]; necessary := {["futex"]} |}
           (minimize_seccomp_profile
              (steady_env scenario_profile futex_needed) empty_world).2).
  - reflexivity.
  - vm_compute. reflexivity.
Defined.

Section NecessaryFacts.

Variable E : env.
Variable all_syscalls : list string.

(** Only candidates are marked necessary. *)
Lemma for_each_necessary_candidates rest :
  ∀ i st x,
    x ∈ necessary_syscalls (for_each E all_syscalls i rest st).2 →
    x ∈ necessary_syscalls st ∨ x ∈ rest.
Proof.
  induction rest as [|c rest IH]; intros i st x; simpl; [by left|].
  unfold bind.
  destruct (trial_iteration E all_syscalls i c st) as [[e|[]] st1] eqn:Hit;
    simpl.
  - apply trial_iteration_verdict in Hit. revert Hit. cbv zeta.
    destruct (trial_verdict _); try (by intros [? _]).
    intros (_ & _ & ->). by left.
  - intros Hx. apply IH in Hx as [Hx|Hx]; [|by right; right].
    apply trial_iteration_verdict in Hit. revert Hit. cbv zeta.
    destruct (trial_verdict _) as [e| | |].
    + by intros [? _].
    + intros (_ & _ & Hn). rewrite Hn in Hx. by left.
    + intros (_ & _ & Hn). rewrite Hn in Hx.
      apply elem_of_union in Hx as [Hx|Hx%elem_of_singleton];
        [by left | subst; by right; left].
    + intros (_ & _ & Hn). rewrite Hn in Hx.
      apply elem_of_union in Hx as [Hx|Hx%elem_of_singleton];
        [by left | subst; by right; left].
Qed.

(** An iteration left by an exception has changed neither the working
    policy nor the necessary set. *)
Lemma trial_iteration_aborted_locals i c st e st1 :
  trial_iteration E all_syscalls i c st = (inl e, st1) →
  working_profile st1 = working_profile st
  ∧ necessary_syscalls st1 = necessary_syscalls st.
Proof.
  intros Hit. apply trial_iteration_verdict in Hit. revert Hit. cbv zeta.
  destruct (trial_verdict _); try (by intros [? _]).
  by intros (_ & ? & ?).
Qed.

Hypothesis commits_saved : ∀ c tp, save_working (trial E c tp) = Saved.

(** An iteration that ends normally has committed the removal, or kept
    the working policy and marked the candidate. *)
Lemma trial_iteration_continues i c st st1 :
  trial_iteration E all_syscalls i c st = (inr tt, st1) →
  (working_profile st1 = remove_syscall_from_profile (working_profile st) c
   ∧ necessary_syscalls st1 = necessary_syscalls st)
  ∨ (working_profile st1 = working_profile st
     ∧ necessary_syscalls st1 = necessary_syscalls st ∪ {[c]}).
Proof.
  intros Hit. apply trial_iteration_verdict in Hit. revert Hit. cbv zeta.
  unfold trial_verdict. rewrite commits_saved.
  destruct (save_test _); [|by intros [? _]].
  destruct (_ && _).
  - intros (_ & ? & ?). by left.
  - intros (_ & ? & ?). by right.
Qed.

(** When no write of seccomp.json fails, every name marked necessary
    stays in the working policy to the end of the loop. *)
Lemma for_each_necessary_kept rest :
  ∀ i st,
    NoDup rest →
    (∀ x, x ∈ necessary_syscalls st →
          x ∈ get_all_syscalls (working_profile st) ∧ x ∉ rest) →
    (∀ x, x ∈ rest → x ∈ get_all_syscalls (working_profile st)) →
    ∀ x, x ∈ necessary_syscalls (for_each E all_syscalls i rest st).2 →
         x ∈ get_all_syscalls
               (working_profile (for_each E all_syscalls i rest st).2).
Proof.
  induction rest as [|c rest IH]; intros i st Hnd Hnec Hrest; simpl.
  - intros x Hx. by apply Hnec.
  - apply NoDup_cons in Hnd as [Hc Hnd]. unfold bind.
    destruct (trial_iteration E all_syscalls i c st) as [[e|[]] st1] eqn:Hit;
      simpl.
    + apply trial_iteration_aborted_locals in Hit as [-> ->].
      intros x Hx. by apply Hnec.
    + apply trial_iteration_continues in Hit as [[Hw Hn]|[Hw Hn]].
      * apply IH; [done| |].
        -- intros x Hx. rewrite Hn in Hx. rewrite Hw.
           destruct (Hnec x Hx) as [Hxw Hxr].
           apply not_elem_of_cons in Hxr as [Hxc Hxr]. split; [|done].
           by apply get_all_syscalls_remove_other.
        -- intros x Hx. rewrite Hw. apply get_all_syscalls_remove_other.
           ++ intros ->. contradiction.
           ++ apply Hrest. by right.
      * apply IH; [done| |].
        -- intros x Hx. rewrite Hn in Hx. rewrite Hw.
           apply elem_of_union in Hx as [Hx|Hx%elem_of_singleton].
           ++ destruct (Hnec x Hx) as [Hxw Hxr].
              apply not_elem_of_cons in Hxr as [_ Hxr]. by split.
           ++ subst x. split; [apply Hrest; by left | done].
        -- intros x Hx. rewrite Hw. apply Hrest. by right.
Qed.

End NecessaryFacts.

(** Every name a completed run reports as necessary is a name of the
    baseline and, when no write of seccomp.json failed, a name of the final
    policy; this holds also for baselines that repeat names. *)
Theorem necessary_names_are_kept
    (E : env) (w : world) (baseline : profile) (rep : report) (w' : world) :
  load_default E = inr baseline →
  (∀ c tp, save_working (trial E c tp) = Saved) →
  minimize_seccomp_profile E w = (inr rep, w') →
  ∀ x, x ∈ necessary rep →
       x ∈ get_all_syscalls baseline
       ∧ x ∈ get_all_syscalls (final_profile rep).
Proof.
  intros Hload Hsaved Hrun x Hx.
  apply minimize_completed in Hrun
    as (baseline' & st & Hload' & Hloop & -> & Hnec & _).
  rewrite Hload in Hload'. injection Hload' as <-. rewrite Hnec in Hx. split.
  - pose proof (for_each_necessary_candidates E (get_all_syscalls baseline)
                  (get_all_syscalls baseline) 0 (loop_entry baseline w) x) as Hc.
    rewrite Hloop in Hc. destruct (Hc Hx) as [Hin|Hin]; [|done].
    by apply elem_of_empty in Hin.
  - pose proof (for_each_necessary_kept E (get_all_syscalls baseline) Hsaved
                  (get_all_syscalls baseline) 0 (loop_entry baseline w)
                  (NoDup_get_all_syscalls baseline)) as Hk.
    rewrite Hloop in Hk. apply Hk; [|done|done].
    intros y Hy. by apply elem_of_empty in Hy.
Qed.

Lemma necessary_names_are_kept_witness :
  "write" ∈ get_all_syscalls (one_group ["read"; "read"; "write"])
  ∧ "write" ∈ get_all_syscalls (one_group ["read"; "write"]).
Proof.
  apply (necessary_names_are_kept
           (steady_env (one_group ["read"; "read"; "write"]) read_write_needed)
           empty_world (one_group ["read"; "read"; "write"])
           {| final_profile := one_group ["read"; "write"];
              necessary := {["write"]} |}
           (minimize_seccomp_profile
              (steady_env (one_group ["read"; "read"; "write"])
                 read_write_needed) empty_world).2).
  - reflexivity.
  - intros c tp. reflexivity.
  - vm_compute. reflexivity.
  - simpl. by apply elem_of_singleton.
Defined.

(** On a baseline in which no group repeats a name, when no write of
    seccomp.json fails, the names a completed run reports as necessary are
    exactly the names of the final policy. *)
Theorem necessary_is_final_content
    (E : env) (w : world) (baseline : profile) (rep : report) (w' : world)
    (x : string) :
  load_default E = inr baseline →
  names_unique baseline →
  (∀ c tp, save_working (trial E c tp) = Saved) →
  minimize_seccomp_profile E w = (inr rep, w') →
  x ∈ necessary rep ↔ x ∈ get_all_syscalls (final_profile rep).
Proof.
  intros Hload Hu Hsaved Hrun.
  apply minimize_completed in Hrun
    as (baseline' & st & Hload' & Hloop & -> & -> & _).
  rewrite Hload in Hload'. injection Hload' as <-.
  apply (for_each_partition E Hsaved) in Hloop as (H1 & _ & H3);
    [|done|apply NoDup_get_all_syscalls|done].
  simpl in *. rewrite H3, elem_of_empty. split.
  - by intros [[]|[_ ?]].
  - intros Hx. right. split; [by apply H1 | done].
Qed.

Lemma necessary_is_final_content_witness :
  "futex" ∈ necessary {| final_profile := one_group ["futex"];
                         necessary := {["futex"]} |}
  ↔ "futex" ∈ get_all_syscalls
                (final_profile {| final_profile := one_group ["futex"];
                                  necessary := {["futex"]} |}).
Proof.
  apply (necessary_is_final_content
           (steady_env scenario_profile futex_needed) empty_world
           scenario_profile
           {| final_profile := one_group ["futex"]; necessary := {["futex"]} |}
           (minimize_seccomp_profile
              (steady_env scenario_profile futex_needed) empty_world).2
           "futex").
  - reflexivity.
  - unfold names_unique. vm_compute groups. repeat constructor;
      rewrite ?elem_of_cons, ?elem_of_nil; intuition discriminate.
  - intros c tp. reflexivity.
  - vm_compute. reflexivity.
Defined.

Section Minimality.

Variable E : env.
Variable all_syscalls : list string.
Variable works : profile → bool.

Hypothesis writes_succeed :
  ∀ c tp, save_test (trial E c tp) = Saved
          ∧ save_working (trial E c tp) = Saved.
Hypothesis service :
  ∀ c tp, launch_reaches_running (trial E c tp)
          && verification_passes (trial E c tp) = works tp.
Hypothesis monotone :
  ∀ p q, (∀ x, x ∈ get_all_syscalls p → x ∈ get_all_syscalls q) →
         works p = true → works q = true.

(** Under a service whose behaviour depends on the trial policy only and
    is monotone in its names, the loop completes; it ends with a policy
    under which the service works if it worked at the start, and from
    which no visited name that is left can be removed. *)
Lemma for_each_minimal rest :
  ∀ i st,
    names_unique (working_profile st) →
    ∃ st',
      for_each E all_syscalls i rest st = (inr tt, st')
      ∧ names_unique (working_profile st')
      ∧ (∀ x, x ∈ get_all_syscalls (working_profile st') →
              x ∈ get_all_syscalls (working_profile st))
      ∧ (works (working_profile st) = true →
         works (working_profile st') = true)
      ∧ ∀ x, x ∈ rest → x ∈ get_all_syscalls (working_profile st') →
             works (remove_syscall_from_profile (working_profile st') x)
             = false.
Proof.
  induction rest as [|c rest IH]; intros i st Hu; simpl.
  - exists st. split_and!; try done. by intros x []%elem_of_nil.
  - set (tp := remove_syscall_from_profile (working_profile st) c).
    destruct (writes_succeed c tp) as [Hst Hsw]. unfold bind.
    destruct (works tp) eqn:Hworks.
    + assert (trial_verdict (trial E c tp) = Commit) as Hv.
      { unfold trial_verdict. by rewrite Hst, service, Hworks, Hsw. }
      destruct (trial_iteration_commit E all_syscalls i c st Hv)
        as (st1 & -> & Hw1 & _).
      destruct (IH (S i) st1) as (st' & -> & Hu' & Hsub & Hkeep & Hmin).
      { rewrite Hw1. by apply names_unique_remove. }
      rewrite Hw1 in Hsub, Hkeep. fold tp in Hsub, Hkeep.
      exists st'. split_and!; [done..| | |].
      * intros x Hx. by eapply get_all_syscalls_remove_subseteq, Hsub.
      * intros _. by apply Hkeep.
      * intros x [->|Hx]%elem_of_cons Hin; [|by apply Hmin].
        apply Hsub in Hin. by apply get_all_syscalls_remove_unique in Hin.
    + assert (trial_verdict (trial E c tp) = Keep) as Hv.
      { unfold trial_verdict. by rewrite Hst, service, Hworks. }
      destruct (trial_iteration_keep E all_syscalls i c st Hv)
        as (st1 & -> & Hw1 & _).
      destruct (IH (S i) st1) as (st' & -> & Hu' & Hsub & Hkeep & Hmin).
      { by rewrite Hw1. }
      rewrite Hw1 in Hsub, Hkeep.
      exists st'. split_and!; [done..|].
      intros x [->|Hx]%elem_of_cons Hin; [|by apply Hmin].
      destruct (works (remove_syscall_from_profile (working_profile st') c))
        eqn:Hw'; [|done].
      rewrite <- Hworks. symmetry. apply (monotone _ tp) in Hw'; [done|].
      intros x. unfold tp.
      rewrite !get_all_syscalls_remove_iff by done. intros [Hx Hne].
      split; [by apply Hsub | done].
Qed.

End Minimality.

(** Local minimality.  On a baseline in which no group repeats a name,
    when nothing fails outside the trials and the service behaves as a
    function of the trial policy that is monotone in its names, the run
    completes with a policy from which no single name can be removed
    without breaking the service, and under which the service works if it
    works under the baseline. *)
Theorem final_policy_locally_minimal
    (E : env) (w : world) (baseline : profile) (works : profile → bool) :
  io_steady E →
  load_default E = inr baseline →
  names_unique baseline →
  (∀ c tp, launch_reaches_running (trial E c tp)
           && verification_passes (trial E c tp) = works tp) →
  (∀ p q, (∀ x, x ∈ get_all_syscalls p → x ∈ get_all_syscalls q) →
          works p = true → works q = true) →
  ∃ rep w',
    minimize_seccomp_profile E w = (inr rep, w')
    ∧ (∀ n, n ∈ get_all_syscalls (final_profile rep) →
            works (remove_syscall_from_profile (final_profile rep) n) = false)
    ∧ (works baseline = true → works (final_profile rep) = true).
Proof.
  intros (Hstop & Hinit & Hfinal & Hio) Hload Hu Hservice Hmono.
  destruct (for_each_minimal E (get_all_syscalls baseline) works Hio Hservice
              Hmono (get_all_syscalls baseline) 0 (loop_entry baseline w) Hu)
    as (st & Hloop & _ & Hsub & Hkeep & Hmin).
  destruct (minimize_run E w baseline st Hstop Hload Hinit Hfinal Hloop)
    as (w' & Hrun & _).
  eexists _, w'. split; [exact Hrun|]. simpl. split; [|done].
  intros n Hn. apply Hmin; [|done]. by apply Hsub.
Qed.

Lemma final_policy_locally_minimal_witness :
  ∃ rep w',
    minimize_seccomp_profile (steady_env scenario_profile futex_needed)
      empty_world = (inr rep, w')
    ∧ (∀ n, n ∈ get_all_syscalls (final_profile rep) →
            futex_needed (remove_syscall_from_profile (final_profile rep) n)
            = false)
    ∧ (futex_needed scenario_profile = true →
       futex_needed (final_profile rep) = true).
Proof.
  apply (final_policy_locally_minimal
           (steady_env scenario_profile futex_needed) empty_world
           scenario_profile futex_needed).
  - repeat split.
  - reflexivity.
  - unfold names_unique. vm_compute groups. repeat constructor;
      rewrite ?elem_of_cons, ?elem_of_nil; intuition discriminate.
  - intros c tp. cbn [trial steady_env]. by destruct (futex_needed tp).
  - intros p q Hsub. unfold futex_needed.
    rewrite !bool_decide_eq_true. apply Hsub.
Defined.

(** The script never ends with an uncaught error.  Its exit status is 0
    exactly when the run completed, and then seccomp-minimized.json holds
    the final policy; otherwise the status is 1 and the containers of the
    image are stopped last.  In that case seccomp-minimized.json holds no
    policy that was not there before, provided neither seccomp.json nor a
    trial policy path of a candidate stands for that file. *)
Theorem main_exit_status (E : env) (w : world) :
  ∃ code w',
    main E w = (inr code, w')
    ∧ ((code = 0%Z
        ∧ ∃ rep, minimize_seccomp_profile E w = (inr rep, w')
                 ∧ files w' !! minimized_profile_path
                   = Some (final_profile rep))
       ∨ (code = 1%Z
          ∧ (∃ e w0, minimize_seccomp_profile E w = (inl e, w0)
                     ∧ files w' = files w0
                     ∧ trace w' = trace w0 ++ [StopContainer])
          ∧ (¬ same_file w working_profile_path minimized_profile_path →
             (∀ baseline,
                load_default E = inr baseline →
                trial_files_apart w (get_all_syscalls baseline)
                  minimized_profile_path) →
             ∀ p, files w' !! minimized_profile_path = Some p →
                  files w !! minimized_profile_path = Some p))).
Proof.
  unfold main, try_except, bind, ret, stop_container, emit.
  destruct (minimize_shape E w)
    as [(e & w0 & Hrun & Hfr & _)
       |(baseline & r & st & Hload & _ & _ & Hloop & Hrun)].
  - rewrite Hrun. cbn [fst snd files trace]. eexists _, _.
    split; [reflexivity|]. right.
    split; [done|]. split; [by eexists _, _|].
    intros Hwork _ p. by rewrite Hfr.
  - pose proof (loop_from_entry E baseline w r st Hloop) as Hden.
    rewrite Hrun. destruct r as [e|[]].
    + eexists _, _. split; [reflexivity|]. right.
      split; [done|]. split; [by eexists _, _|]. cbn [files].
      intros Hwork Hapart p.
      pose proof (for_each_files E (get_all_syscalls baseline)
                    (get_all_syscalls baseline) minimized_profile_path
                    0 (loop_entry baseline w) Hwork (Hapart baseline Hload))
        as Hf.
      rewrite Hloop, loop_entry_files, decide_False in Hf by done.
      cbn [snd] in Hf. by rewrite Hf.
    + destruct (save_final E) as [|e cl].
      * eexists _, _. split; [reflexivity|]. left. split; [done|].
        eexists. split; [reflexivity|]. cbn [files]. files_by_path.
      * eexists _, _. split; [reflexivity|]. right.
        split; [done|]. split; [by eexists _, _|]. cbn [files].
        intros Hwork Hapart p.
        pose proof (for_each_files E (get_all_syscalls baseline)
                      (get_all_syscalls baseline) minimized_profile_path
                      0 (loop_entry baseline w) Hwork (Hapart baseline Hload))
          as Hf.
        rewrite Hloop, loop_entry_files, decide_False in Hf by done.
        cbn [snd] in Hf. destruct cl; [|by rewrite Hf].
        rewrite fs_lookup_delete, decide_True by done. done.
Qed.

(** The guard on the last part is needed: the trial policy path of the
    name a/../seccomp-minimized stands for seccomp-minimized.json; when its
    deletion fails and the trial policy file of the next candidate cannot
    be written, the script exits with status 1 and seccomp-minimized.json
    holds the trial policy. *)
Example escaping_name_leaves_minimized_file :
  let baseline := one_group ["a/../seccomp-minimized"; "read"] in
  let E := {| stop_all := None;
              load_default := inr baseline;
              save_initial := Saved;
              trial := λ c _,
                if bool_decide (c = "read") then
                  {| save_test := SaveRaises OtherException false;
                     docker_run := Exited 0;
                     docker_inspect := Exited 0;
                     inspect_running := inr true;
                     docker_logs := Exited 0;
                     http_get := inr 200%Z;
                     http_post_form := inr 200%Z;
                     http_post_api := inr 200%Z;
                     save_working := Saved;
                     remove_test := true |}
                else
                  {| save_test := Saved;
                     docker_run := ProcRaises TimeoutExpired;
                     docker_inspect := Exited 0;
                     inspect_running := inr true;
                     docker_logs := Exited 0;
                     http_get := inr 200%Z;
                     http_post_form := inr 200%Z;
                     http_post_api := inr 200%Z;
                     save_working := Saved;
                     remove_test := false |};
              save_final := Saved |} in
  get_all_syscalls baseline = ["a/../seccomp-minimized"; "read"]
  ∧ (main E nested_world).1 = inr 1%Z
  ∧ files nested_world !! minimized_profile_path = None
  ∧ files (main E nested_world).2 !! minimized_profile_path
    = Some (one_group ["read"]).
Proof. cbv zeta. split_and!; vm_compute; reflexivity. Qed.

(** The controller's view of [stop_all_containers], an optional exception
    raised inside its [try] block, ends as the detailed body does. *)
Lemma stop_all_containers_summary
    (rt : Teardown.runtime) (h : list Teardown.command) (w : world) :
  (stop_all_containers
     (Teardown.exn_of (Teardown.stop_all_containers_try rt h)) w).1
  = (Teardown.stop_all_containers rt h).1.
Proof.
  unfold Teardown.stop_all_containers, Teardown.exn_of, stop_all_containers,
    try_except, bind, emit, ret, raise.
  destruct (Teardown.stop_all_containers_try rt h) as [[e|[]] h'];
    simpl; [by destruct e | done].
Qed.
